(** * FMDAAdaptor: a shallow embedding of
      [rsiseg/models/segmentors_old/fmda_adaptor.py]

    The segmentor glues a backbone, an optional neck, a decode head, optional
    auxiliary heads and a feature-similarity loss together.  The networks are
    collaborators: they appear here as fields of a [model] record whose
    calls may raise.  What the file itself computes (the metadata transform,
    the sliding-window grid, the inference wrapper, the test entry points and
    the training step) is embedded as executable functions in an exception
    monad.

    Conventions.
    - Tensors are 4-D, [(N, C, H, W)], with their shape stored next to the
      nested data.  Floating-point entries are idealised as rationals [Q].
    - A Python exception is a value [Raise e]; normal return is [Ok v].
    - A metadata dictionary is a [gmap string meta_value].  A value of the
      wrong kind at a use site (a string where a number sequence is
      unpacked, say) is reported as [TypeError].
    - What the environment decides is a field of the model too: whether an
      ONNX export is running, and how a debugger session ends.
    - [softmax], [resize] and the tensor expressions applied to the states
      of the heads are not computed here; they are fields of the model. *)

From Stdlib Require Import ZArith QArith Qround Qminmax List Lia.
From stdpp Require Import base option list strings pretty gmap.

Local Open Scope Z_scope.

(** ** Exceptions *)

Inductive exn : Type :=
| KeyError (key : string)
| IndexError
| ValueError (msg : string)
| TypeError
| AttributeError
| AssertionError
| RuntimeError
| ZeroDivisionError
| BdbQuit.

Inductive result (A : Type) : Type :=
| Ok (a : A)
| Raise (e : exn).
Arguments Ok {A} a.
Arguments Raise {A} e.

#[global] Instance result_ret : MRet result := fun _ a => Ok a.
#[global] Instance result_bind : MBind result := fun _ _ f m =>
  match m with
  | Ok a => f a
  | Raise e => Raise e
  end.

(** [assert cond] *)
Definition py_assert (cond : bool) : result unit :=
  if cond then Ok tt else Raise AssertionError.

(** [d[key]] on a dictionary *)
Definition getitem {V} (d : gmap string V) (key : string) : result V :=
  match d !! key with
  | Some v => Ok v
  | None => Raise (KeyError key)
  end.

(** [l[0]] on a list *)
Definition first {A} (l : list A) : result A :=
  match l with
  | x :: _ => Ok x
  | [] => Raise IndexError
  end.

(** [int(q)]: truncation towards zero. *)
Definition py_int (q : Q) : Z :=
  if Qle_bool 0 q then Qfloor q else Qceiling q.

(** [l[a:b]] with Python's treatment of negative and out-of-range bounds. *)
Definition slice_bounds (a b : Z) (len : nat) : nat * nat :=
  let norm i := if i <? 0 then Z.max (i + Z.of_nat len) 0
                else Z.min i (Z.of_nat len) in
  (Z.to_nat (norm a), Z.to_nat (norm b)).

Definition py_slice {A} (a b : Z) (l : list A) : list A :=
  let '(lo, hi) := slice_bounds a b (length l) in
  take (hi - lo)%nat (drop lo l).

Definition slice_len (a b : Z) (len : nat) : nat :=
  let '(lo, hi) := slice_bounds a b len in (hi - lo)%nat.

(** ** Tensors *)

Definition plane := list (list Q).

Record tensor : Type := Tensor {
  tN : nat;
  tC : nat;
  tH : nat;
  tW : nat;
  data : list (list plane)
}.

Definition plane_ok (h w : nat) (p : plane) : Prop :=
  length p = h /\ Forall (fun row => length row = w) p.

Definition well_formed (t : tensor) : Prop :=
  length (data t) = tN t /\
  Forall (fun sample => length sample = tC t /\
                        Forall (plane_ok (tH t) (tW t)) sample) (data t).

Definition map_planes (f : plane -> plane) (t : tensor) : list (list plane) :=
  map (map f) (data t).

(** [entry p i j]: the element at row [i], column [j] (0 outside). *)
Definition entry (p : plane) (i j : nat) : Q := nth j (nth i p []) 0%Q.

Definition tabulate (h w : nat) (f : nat -> nat -> Q) : plane :=
  map (fun i => map (fun j => f i j) (seq 0 w)) (seq 0 h).

(** [t.flip(dims=[2])]: the rows of every plane in reverse order. *)
Definition flip_h_axis (t : tensor) : tensor :=
  Tensor (tN t) (tC t) (tH t) (tW t) (map_planes (@rev (list Q)) t).

(** [t.flip(dims=[3])]: every row reversed. *)
Definition flip_w_axis (t : tensor) : tensor :=
  Tensor (tN t) (tC t) (tH t) (tW t) (map_planes (map (@rev Q)) t).

(** [t.transpose(2, 3)].  The width is taken from the shape, so that a plane
    without rows still transposes to the right number of empty rows. *)
Definition transpose_plane (w : nat) (p : plane) : plane :=
  map (fun j => map (fun row => nth j row 0%Q) p) (seq 0 w).

Definition transpose23 (t : tensor) : tensor :=
  Tensor (tN t) (tC t) (tW t) (tH t) (map_planes (transpose_plane (tW t)) t).

(** [torch.rot90(t, k, dims=[2,3])].  Torch reduces [k] modulo 4 and then
    - 1: flips dim 3 and transposes,
    - 2: flips both dims,
    - 3: flips dim 2 and transposes,
    - 0: returns a copy. *)
Definition rot90 (t : tensor) (k : Z) : tensor :=
  match k mod 4 with
  | 1 => transpose23 (flip_w_axis t)
  | 2 => flip_h_axis (flip_w_axis t)
  | 3 => transpose23 (flip_h_axis t)
  | _ => t
  end.

(** [t[:, :, y1:y2, x1:x2]] *)
Definition index_hw (t : tensor) (y1 y2 x1 x2 : Z) : tensor :=
  Tensor (tN t) (tC t) (slice_len y1 y2 (tH t)) (slice_len x1 x2 (tW t))
         (map_planes (fun p => map (py_slice x1 x2) (py_slice y1 y2 p)) t).

(** *** Bilinear resampling

    [F.interpolate(t, scale_factor=(s2, s3), mode='bilinear')], with torch's
    defaults ([align_corners=False], the given factors are used for the
    source coordinates).  The first factor acts on dim 2 (height), the
    second on dim 3 (width).  An output pixel [dst] reads the source
    coordinate [(dst + 1/2) / s - 1/2], clamped at 0, and blends the two
    neighbouring source entries. *)

Definition out_size (in_size : nat) (s : Q) : Z :=
  Qfloor (inject_Z (Z.of_nat in_size) * s)%Q.

Definition source_coord (in_size : nat) (s : Q) (dst : nat) : nat * nat * Q :=
  let src := Qmax 0 ((inject_Z (Z.of_nat dst) + (1 # 2)) / s - (1 # 2))%Q in
  let i0 := Z.to_nat (Z.min (Qfloor src) (Z.of_nat in_size - 1)) in
  let i1 := if (i0 <? in_size - 1)%nat then S i0 else i0 in
  let lam := Qmin (Qmax (src - inject_Z (Z.of_nat i0))%Q 0) 1 in
  (i0, i1, lam).

Definition bilinear_plane (h w : nat) (s2 s3 : Q) (oh ow : nat) (p : plane)
  : plane :=
  tabulate oh ow (fun oy ox =>
    let '(y0, y1, ly) := source_coord h s2 oy in
    let '(x0, x1, lx) := source_coord w s3 ox in
    Qred ((1 - ly) * ((1 - lx) * entry p y0 x0 + lx * entry p y0 x1)
          + ly * ((1 - lx) * entry p y1 x0 + lx * entry p y1 x1))%Q).

Definition interpolate (t : tensor) (scale_factor : Q * Q) : result tensor :=
  let '(s2, s3) := scale_factor in
  let oh := out_size (tH t) s2 in
  let ow := out_size (tW t) s3 in
  if ((tC t =? 0) || (tH t =? 0) || (tW t =? 0))%nat
     || (oh <=? 0) || (ow <=? 0)
  then Raise RuntimeError
  else Ok (Tensor (tN t) (tC t) (Z.to_nat oh) (Z.to_nat ow)
             (map_planes (bilinear_plane (tH t) (tW t) s2 s3
                            (Z.to_nat oh) (Z.to_nat ow)) t)).

(** ** Metadata *)

Inductive meta_value : Type :=
| MBool (b : bool)
| MInt (z : Z)
| MFloat (q : Q)
| MStr (s : string)
| MSeq (l : list Q).

(** Truth value of a metadata entry in an [if]. *)
Definition truthy (v : meta_value) : bool :=
  match v with
  | MBool b => b
  | MInt z => negb (z =? 0)
  | MFloat q => negb (Qeq_bool q 0)
  | MStr s => negb (String.eqb s "")
  | MSeq l => negb (Nat.eqb (length l) 0)
  end.

(** [a, b, c, d = v] *)
Definition unpack4 (v : meta_value) : result (Q * Q * Q * Q) :=
  match v with
  | MSeq [a; b; c; d] => Ok (a, b, c, d)
  | MSeq _ => Raise (ValueError "unpack")
  | _ => Raise TypeError
  end.

(** [a, b, c = v] *)
Definition unpack3 (v : meta_value) : result (Q * Q * Q) :=
  match v with
  | MSeq [a; b; c] => Ok (a, b, c)
  | MSeq _ => Raise (ValueError "unpack")
  | _ => Raise TypeError
  end.

(** The rotation count handed to [torch.rot90] must be an integer. *)
Definition as_int (v : meta_value) : result Z :=
  match v with
  | MInt z => Ok z
  | MBool b => Ok (Z.b2z b)
  | _ => Raise TypeError
  end.

(** ** [proportional_crop] and [transform_by_metas] *)

Definition proportional_crop (data : tensor) (crop_bbox : meta_value)
    (scale : Q) : result tensor :=
  let rescale x := py_int (x * scale)%Q in
  '(y1, y2, x1, x2) ← unpack4 crop_bbox;
  Ok (index_hw data (rescale y1) (rescale y2) (rescale x1) (rescale x2)).

(** [if 'scale_factor' in metas: ...] *)
Definition step_scale (data : tensor) (metas : gmap string meta_value)
  : result tensor :=
  match metas !! "scale_factor" with
  | None => Ok data
  | Some v =>
      '(w_scale, h_scale, _, _) ← unpack4 v;
      interpolate data (w_scale, h_scale)
  end.

(** [if 'crop_bbox' in metas: ...] *)
Definition step_crop (data : tensor) (metas : gmap string meta_value)
  : result tensor :=
  match metas !! "crop_bbox" with
  | None => Ok data
  | Some bbox =>
      sf ← getitem metas "scale_factor";
      '(w_scale, h_scale, _, _) ← unpack4 sf;
      _ ← py_assert (Qeq_bool w_scale h_scale);
      data ← proportional_crop data bbox (1 # 8);
      os ← getitem metas "ori_shape";
      '(H, W, _) ← unpack3 os;
      let new_h := py_int (H * h_scale)%Q in
      let new_w := py_int (W * w_scale)%Q in
      let data_h := tH data in
      let data_w := tW data in
      Ok data
  end.

(** [if 'rotate_k' in metas: ...] *)
Definition step_rotate (data : tensor) (metas : gmap string meta_value)
  : result tensor :=
  match metas !! "rotate_k" with
  | None => Ok data
  | Some v => k ← as_int v; Ok (rot90 data k)
  end.

(** [if 'flip_horizontal' in metas and metas['flip_horizontal']: ...] *)
Definition step_flip_horizontal (data : tensor)
    (metas : gmap string meta_value) : result tensor :=
  match metas !! "flip_horizontal" with
  | Some v => if truthy v then Ok (flip_w_axis data) else Ok data
  | None => Ok data
  end.

(** [if 'flip_vertical' in metas and metas['flip_vertical']: ...] *)
Definition step_flip_vertical (data : tensor)
    (metas : gmap string meta_value) : result tensor :=
  match metas !! "flip_vertical" with
  | Some v => if truthy v then Ok (flip_h_axis data) else Ok data
  | None => Ok data
  end.

Definition transform_by_metas (data : tensor)
    (metas : gmap string meta_value) : result tensor :=
  data ← step_scale data metas;
  data ← step_crop data metas;
  data ← step_rotate data metas;
  data ← step_flip_horizontal data metas;
  step_flip_vertical data metas.

(** ** Tensor arithmetic used by the inference engine *)

Definition get (t : tensor) (n c i j : nat) : Q :=
  entry (nth c (nth n (data t) []) []) i j.

Definition build (n c h w : nat) (f : nat -> nat -> nat -> nat -> Q) : tensor :=
  Tensor n c h w
    (map (fun b => map (fun ch => tabulate h w (f b ch)) (seq 0 c)) (seq 0 n)).

(** [img.new_zeros((n, c, h, w))] *)
Definition new_zeros (n c h w : nat) : tensor :=
  build n c h w (fun _ _ _ _ => 0%Q).

(** Broadcasting: a dimension of size 1 is read at index 0. *)
Definition bidx (size i : nat) : nat := if (size =? 1)%nat then 0%nat else i.

Definition bget (t : tensor) (n c i j : nat) : Q :=
  get t (bidx (tN t) n) (bidx (tC t) c) (bidx (tH t) i) (bidx (tW t) j).

Definition fits (target size : nat) : bool :=
  (size =? target)%nat || (size =? 1)%nat.

(** [a += b]: [b] must broadcast to the shape of [a]. *)
Definition iadd (a b : tensor) : result tensor :=
  if fits (tN a) (tN b) && fits (tC a) (tC b)
     && fits (tH a) (tH b) && fits (tW a) (tW b)
  then Ok (build (tN a) (tC a) (tH a) (tW a)
             (fun n c i j => Qred (get a n c i j + bget b n c i j)))
  else Raise RuntimeError.

Definition bdim (x y : nat) : option nat :=
  if (x =? y)%nat then Some x
  else if (x =? 1)%nat then Some y
  else if (y =? 1)%nat then Some x
  else None.

(** [a / b] with broadcasting in both directions. *)
Definition truediv (a b : tensor) : result tensor :=
  match bdim (tN a) (tN b), bdim (tC a) (tC b),
        bdim (tH a) (tH b), bdim (tW a) (tW b) with
  | Some n, Some c, Some h, Some w =>
      Ok (build n c h w (fun n c i j => Qred (bget a n c i j / bget b n c i j)))
  | _, _, _, _ => Raise RuntimeError
  end.

(** [a /= k] for a Python integer [k]. *)
Definition idiv_scalar (a : tensor) (k : Z) : tensor :=
  build (tN a) (tC a) (tH a) (tW a)
    (fun n c i j => Qred (get a n c i j / inject_Z k)).

(** [F.pad(t, (left, right, top, bottom))] with zeros.  The caller below
    only passes amounts that are not negative (see [window_inside]). *)
Definition pad (t : tensor) (left right top bottom : Z) : tensor :=
  let l := Z.to_nat left in
  let u := Z.to_nat top in
  build (tN t) (tC t)
    (u + tH t + Z.to_nat bottom) (l + tW t + Z.to_nat right)
    (fun n c i j =>
       if (u <=? i)%nat && (i <? u + tH t)%nat
          && (l <=? j)%nat && (j <? l + tW t)%nat
       then get t n c (i - u) (j - l) else 0%Q).

(** [t[:, :, y1:y2, x1:x2] += 1] *)
Definition add_one_at (t : tensor) (y1 y2 x1 x2 : Z) : tensor :=
  let '(ylo, yhi) := slice_bounds y1 y2 (tH t) in
  let '(xlo, xhi) := slice_bounds x1 x2 (tW t) in
  build (tN t) (tC t) (tH t) (tW t)
    (fun n c i j =>
       if (ylo <=? i)%nat && (i <? yhi)%nat
          && (xlo <=? j)%nat && (j <? xhi)%nat
       then Qred (get t n c i j + 1) else get t n c i j).

Definition all_entries (P : Q -> bool) (t : tensor) : bool :=
  forallb (forallb (forallb (forallb P))) (data t).

(** [(t == 0).sum() == 0] *)
Definition no_zero_entry (t : tensor) : bool :=
  all_entries (fun x => negb (Qeq_bool x 0)) t.

(** Index of the first maximal entry of a non-empty list. *)
Fixpoint argmax_from (best : Q) (best_i i : nat) (l : list Q) : nat :=
  match l with
  | [] => best_i
  | x :: l' =>
      if Qle_bool x best then argmax_from best best_i (S i) l'
      else argmax_from x i (S i) l'
  end.

Definition argmax_list (l : list Q) : nat :=
  match l with
  | [] => 0%nat
  | x :: l' => argmax_from x 0%nat 1%nat l'
  end.

(** [t.argmax(dim=1)]: one [H x W] map of class indices per sample. *)
Definition argmax_dim1 (t : tensor) : result (list plane) :=
  if (tC t =? 0)%nat then Raise IndexError
  else Ok (map (fun sample =>
                  tabulate (tH t) (tW t) (fun i j =>
                    inject_Z (Z.of_nat
                      (argmax_list (map (fun p => entry p i j) sample)))))
               (data t)).

(** ** The model and its collaborators *)

Abbreviation meta_dict := (gmap string meta_value).

(** [img_meta] arrives as a list of dictionaries or wrapped in a
    [DataContainer]. *)
Inductive meta_arg : Type :=
| MetaList (l : list meta_dict)
| MetaContainer (data : list (list meta_dict)).

Record test_config : Type := TestConfig {
  mode : string;
  stride : Z * Z;
  crop_size : Z * Z
}.

(** How the debugger session opened by [pdb.set_trace()] ends: the operator
    resumes the program, or quits it (also at end of input), which raises
    [BdbQuit]. *)
Inductive pdb_session : Type := PdbContinue | PdbQuit.

Definition losses := gmap string Q.

(** [forward_train] of a head: features, metadata, ground truth (the
    training configuration is fixed inside the head). *)
Definition head_train (value : Type) : Type :=
  list tensor -> list meta_dict -> tensor ->
  result (losses * gmap string value).

Inductive aux_heads (value : Type) : Type :=
| SingleHead (h : head_train value)
| HeadList (hs : list (head_train value)).
Arguments SingleHead {value} h.
Arguments HeadList {value} hs.

(** [value] is the type of the tensors, of whatever rank, that heads and
    the similarity loss put in their state dictionaries. *)
Record model (value : Type) : Type := Model {
  backbone : tensor -> result (list tensor);
  neck : option (list tensor -> result (list tensor));
  decode_head_forward_test : list tensor -> list meta_dict -> result tensor;
  decode_head_forward_train : head_train value;
  auxiliary_head : option (aux_heads value);
  loss_sim_feat :
    option (tensor -> value -> result (losses * gmap string value));
  (** [BaseSegmentor._parse_losses] *)
  parse_losses : losses -> result (Q * gmap string Q);
  (** [rsiseg.ops.resize(input, size, mode='bilinear', align_corners)] *)
  resize : tensor -> list Q -> result tensor;
  (** [F.softmax(t, dim=1)] *)
  softmax : tensor -> tensor;
  (** [v.detach()] *)
  detach : value -> result value;
  (** [v.max(dim=1)[1].unsqueeze(1)] *)
  max_indices : value -> result value;
  (** [1 - v.unsqueeze(1)] *)
  one_minus : value -> result value;
  num_classes : nat;
  test_cfg : test_config;
  (** [torch.onnx.is_in_onnx_export()] *)
  in_onnx_export : bool;
  debugger : pdb_session
}.
Arguments backbone {value} m.
Arguments neck {value} m.
Arguments decode_head_forward_test {value} m.
Arguments decode_head_forward_train {value} m.
Arguments auxiliary_head {value} m.
Arguments loss_sim_feat {value} m.
Arguments parse_losses {value} m.
Arguments resize {value} m.
Arguments softmax {value} m.
Arguments detach {value} m.
Arguments max_indices {value} m.
Arguments one_minus {value} m.
Arguments num_classes {value} m.
Arguments test_cfg {value} m.
Arguments in_onnx_export {value} m.
Arguments debugger {value} m.

(** States returned by the test-time entry points. *)
Inductive test_state : Type :=
| Feats (x : list tensor)
| SegLogits (t : tensor).

(** One sample [x[idx]] of a batch tensor: shape [(C, H, W)]. *)
Record sample : Type := Sample {
  sC : nat;
  sH : nat;
  sW : nat;
  planes : list plane
}.

(** The dictionary [{'feats': [...], 'seg_logits': ...}] of one sample. *)
Record sample_state : Type := SampleState {
  sample_feats : list sample;
  sample_seg_logits : sample
}.

(** What [simple_test] returns: the 4-D prediction under ONNX export,
    otherwise the pair [(seg_pred, state_list)]. *)
Inductive test_output : Type :=
| Exported (seg_pred : tensor)
| Tested (seg_pred : list plane) (state_list : list sample_state).

(** A Python object bound to [seg_logit] inside [aug_test]: a tensor, or a
    tuple whose items are tensors and state dictionaries. *)
Inductive tuple_item : Type :=
| ITensor (t : tensor)
| IStates (s : gmap string test_state).

Inductive pyobj : Type :=
| PTensor (t : tensor)
| PTuple (items : list tuple_item).

Fixpoint foldM {A B} (f : A -> B -> result A) (a : A) (l : list B)
  : result A :=
  match l with
  | [] => Ok a
  | x :: l' => a' ← f a x; foldM f a' l'
  end.

Fixpoint mapM {A B} (f : A -> result B) (l : list A) : result (list B) :=
  match l with
  | [] => Ok []
  | x :: l' => y ← f x; ys ← mapM f l'; Ok (y :: ys)
  end.

(** [range(n)] *)
Definition range (n : Z) : list Z := map Z.of_nat (seq 0 (Z.to_nat n)).

(** The number a scalar metadata value stands for ([True] is 1). *)
Definition as_number (v : meta_value) : option Q :=
  match v with
  | MBool b => Some (inject_Z (Z.b2z b))
  | MInt z => Some (inject_Z z)
  | MFloat q => Some q
  | _ => None
  end.

Fixpoint seq_eqb (l1 l2 : list Q) : bool :=
  match l1, l2 with
  | [], [] => true
  | x :: l1', y :: l2' => Qeq_bool x y && seq_eqb l1' l2'
  | _, _ => false
  end.

(** [a == b] on metadata values: numbers compare by value, strings and
    sequences by content, values of different kinds are unequal. *)
Definition py_eq (a b : meta_value) : bool :=
  match a, b with
  | MStr s1, MStr s2 => bool_decide (s1 = s2)
  | MSeq l1, MSeq l2 => seq_eqb l1 l2
  | _, _ =>
      match as_number a, as_number b with
      | Some x, Some y => Qeq_bool x y
      | _, _ => false
      end
  end.

(** [v[:2]] *)
Definition prefix2 (v : meta_value) : result (list Q) :=
  match v with
  | MSeq l => Ok (take 2 l)
  | _ => Raise TypeError
  end.

(** [x[idx]] on a batch tensor *)
Definition index0 (t : tensor) (idx : nat) : result sample :=
  if (idx <? tN t)%nat
  then Ok (Sample (tC t) (tH t) (tW t) (nth idx (data t) []))
  else Raise IndexError.

(** *** The sliding-window grid *)

(** [max(img_dim - crop_dim + stride_dim - 1, 0) // stride_dim + 1] *)
Definition grids (img_dim crop_dim stride_dim : Z) : result Z :=
  if stride_dim =? 0 then Raise ZeroDivisionError
  else Ok (Z.max (img_dim - crop_dim + stride_dim - 1) 0 / stride_dim + 1).

(** The crop [(y1, y2, x1, x2)] of grid cell [(h_idx, w_idx)]. *)
Definition window (h_img w_img h_crop w_crop h_stride w_stride : Z)
    (cell : Z * Z) : Z * Z * Z * Z :=
  let '(h_idx, w_idx) := cell in
  let y1 := h_idx * h_stride in
  let x1 := w_idx * w_stride in
  let y2 := Z.min (y1 + h_crop) h_img in
  let x2 := Z.min (x1 + w_crop) w_img in
  let y1 := Z.max (y2 - h_crop) 0 in
  let x1 := Z.max (x2 - w_crop) 0 in
  (y1, y2, x1, x2).

(** The cells in the order of the two nested [for] loops. *)
Definition cells (h_grids w_grids : Z) : list (Z * Z) :=
  h_idx ← range h_grids; w_idx ← range w_grids; [(h_idx, w_idx)].

(** The deprecated entry point: [self] and the arguments are not read. *)
Definition forward_train {value : Type} (self : model value) (img : tensor)
    (img_metas : list meta_dict) (gt_semantic_seg : tensor)
    (return_states : bool) : result losses :=
  Raise (ValueError "Deprecated forward_train method! Use train_step instead").

(** The count buffer after [count_mat[:, :, y1:y2, x1:x2] += 1] for every
    window of the list, in order. *)
Definition count_windows (count_mat : tensor) (wins : list (Z * Z * Z * Z))
  : tensor :=
  fold_left (fun c win => let '(y1, y2, x1, x2) := win in
                          add_one_at c y1 y2 x1 x2) wins count_mat.

(** Whether the crop [win] contains the pixel [(i, j)] of an [h x w]
    plane. *)
Definition covers (h w : nat) (win : Z * Z * Z * Z) (i j : nat) : bool :=
  let '(y1, y2, x1, x2) := win in
  let '(ylo, yhi) := slice_bounds y1 y2 h in
  let '(xlo, xhi) := slice_bounds x1 x2 w in
  (ylo <=? i)%nat && (i <? yhi)%nat && (xlo <=? j)%nat && (j <? xhi)%nat.

(** An index inside the shape of [t]. *)
Definition in_bounds (t : tensor) (b ch i j : nat) : Prop :=
  (b < tN t)%nat /\ (ch < tC t)%nat /\ (i < tH t)%nat /\ (j < tW t)%nat.

(** The data of [t] is laid out as its shape says. *)
Definition is_build (t : tensor) : Prop :=
  exists f, t = build (tN t) (tC t) (tH t) (tW t) f.

Section Segmentor.

Context {value : Type} (self : model value).

Definition extract_feat (img : tensor) : result (list tensor) :=
  x ← backbone self img;
  match neck self with
  | Some neck => neck x
  | None => Ok x
  end.

Definition encode_decode (img : tensor) (img_metas : list meta_dict)
  : result (tensor * gmap string test_state) :=
  x ← extract_feat img;
  out ← decode_head_forward_test self x img_metas;
  out ← resize self out
          [inject_Z (Z.of_nat (tH img)); inject_Z (Z.of_nat (tW img))];
  Ok (out, <["seg_logits" := SegLogits out]> {["feats" := Feats x]}).

(** The body of the two nested loops of [slide_inference], on the pair
    [(preds, count_mat)]. *)
Definition slide_cell (img : tensor) (img_meta : list meta_dict)
    (acc : tensor * tensor) (win : Z * Z * Z * Z) : result (tensor * tensor) :=
  let '(preds, count_mat) := acc in
  let '(y1, y2, x1, x2) := win in
  let crop_img := index_hw img y1 y2 x1 x2 in
  '(crop_seg_logit, _) ← encode_decode crop_img img_meta;
  preds ← iadd preds
            (pad crop_seg_logit x1 (Z.of_nat (tW preds) - x2)
                                y1 (Z.of_nat (tH preds) - y2));
  Ok (preds, add_one_at count_mat y1 y2 x1 x2).

(** [slide_inference] up to the end of its loops: the accumulated
    [(preds, count_mat)]. *)
Definition slide_loop (img : tensor) (img_meta : list meta_dict)
  : result (tensor * tensor) :=
  let '(h_stride, w_stride) := stride (test_cfg self) in
  let '(h_crop, w_crop) := crop_size (test_cfg self) in
  let batch_size := tN img in
  let h_img := Z.of_nat (tH img) in
  let w_img := Z.of_nat (tW img) in
  h_grids ← grids h_img h_crop h_stride;
  w_grids ← grids w_img w_crop w_stride;
  let preds := new_zeros batch_size (num_classes self) (tH img) (tW img) in
  let count_mat := new_zeros batch_size 1 (tH img) (tW img) in
  foldM (slide_cell img img_meta) (preds, count_mat)
    (map (window h_img w_img h_crop w_crop h_stride w_stride)
         (cells h_grids w_grids)).

Definition slide_inference (img : tensor) (img_meta : list meta_dict)
    (rescale : bool) : result tensor :=
  '(preds, count_mat) ← slide_loop img img_meta;
  _ ← py_assert (no_zero_entry count_mat);
  (* under ONNX export [count_mat] is rebuilt as a constant: same entries *)
  preds ← truediv preds count_mat;
  if rescale then
    m0 ← first img_meta;
    ori_shape ← getitem m0 "ori_shape";
    size ← prefix2 ori_shape;
    resize self preds size
  else Ok preds.

Definition whole_inference (img : tensor) (img_meta : list meta_dict)
    (rescale : bool) : result (tensor * gmap string test_state) :=
  '(seg_logit, states) ← encode_decode img img_meta;
  if rescale then
    size ← (if in_onnx_export self
            then Ok [inject_Z (Z.of_nat (tH img));
                     inject_Z (Z.of_nat (tW img))]
            else m0 ← first img_meta;
                 ori_shape ← getitem m0 "ori_shape";
                 prefix2 ori_shape);
    seg_logit ← resize self seg_logit size;
    Ok (seg_logit, states)
  else Ok (seg_logit, states).

(** [all(_['ori_shape'] == ori_shape for _ in img_meta)] *)
Fixpoint all_ori_shape (ori_shape : meta_value) (img_meta : list meta_dict)
  : result bool :=
  match img_meta with
  | [] => Ok true
  | m :: rest =>
      v ← getitem m "ori_shape";
      if py_eq v ori_shape then all_ori_shape ori_shape rest else Ok false
  end.

(** [pdb.set_trace()] *)
Definition pdb_set_trace : result unit :=
  match debugger self with
  | PdbContinue => Ok tt
  | PdbQuit => Raise BdbQuit
  end.

(** The [if flip:] block of [inference], applied to the softmax output. *)
Definition undo_flip (m0 : meta_dict) (flip : meta_value) (output : tensor)
  : result tensor :=
  if truthy flip then
    _ ← pdb_set_trace;
    flip_direction ← getitem m0 "flip_direction";
    _ ← py_assert (py_eq flip_direction (MStr "horizontal")
                   || py_eq flip_direction (MStr "vertical"));
    if py_eq flip_direction (MStr "horizontal")
    then Ok (flip_w_axis output)
    else if py_eq flip_direction (MStr "vertical")
    then Ok (flip_h_axis output)
    else Ok output
  else Ok output.

(** [inference] up to the computation of [seg_logit] and [states]. *)
Definition run_strategy (img : tensor) (img_meta : meta_arg) (rescale : bool)
  : result (meta_dict * tensor * gmap string test_state) :=
  _ ← py_assert (bool_decide (mode (test_cfg self) = "slide")
                 || bool_decide (mode (test_cfg self) = "whole"));
  img_meta ← match img_meta with
             | MetaContainer data => first data
             | MetaList l => Ok l
             end;
  m0 ← first img_meta;
  ori_shape ← getitem m0 "ori_shape";
  same ← all_ori_shape ori_shape img_meta;
  _ ← py_assert same;
  '(seg_logit, states) ←
    (if bool_decide (mode (test_cfg self) = "slide")
     then seg_logit ← slide_inference img img_meta rescale;
          Ok (seg_logit, ∅)
     else whole_inference img img_meta rescale);
  Ok (m0, seg_logit, states).

Definition inference (img : tensor) (img_meta : meta_arg) (rescale : bool)
  : result (tensor * gmap string test_state) :=
  '(m0, seg_logit, states) ← run_strategy img img_meta rescale;
  let output := softmax self seg_logit in
  flip ← getitem m0 "flip";
  output ← undo_flip m0 flip output;
  Ok (output, states).

(** The body of the per-sample loop of [simple_test]. *)
Definition slice_states (states : gmap string test_state) (idx : nat)
  : result sample_state :=
  feats ← getitem states "feats";
  feats ← match feats with
          | Feats x => mapM (fun x => index0 x idx) x
          | SegLogits _ => Raise TypeError
          end;
  seg_logits ← getitem states "seg_logits";
  seg_logits ← match seg_logits with
               | SegLogits t => index0 t idx
               | Feats _ => Raise TypeError
               end;
  Ok (SampleState feats seg_logits).

Definition simple_test (img : tensor) (img_meta : meta_arg) (rescale : bool)
  : result test_output :=
  '(seg_logit, states) ← inference img img_meta rescale;
  seg_pred ← argmax_dim1 seg_logit;
  if in_onnx_export self then
    Ok (Exported (Tensor 1 (tN seg_logit) (tH seg_logit) (tW seg_logit)
                    [seg_pred]))
  else
    state_list ← mapM (slice_states states) (seq 0 (length seg_pred));
    Ok (Tested seg_pred state_list).

(** [a += b] on the objects [aug_test] handles: tensors add, tuples
    concatenate. *)
Definition py_iadd (a b : pyobj) : result pyobj :=
  match a, b with
  | PTensor x, PTensor y => t ← iadd x y; Ok (PTensor t)
  | PTuple x, PTuple y => Ok (PTuple (x ++ y))
  | _, _ => Raise TypeError
  end.

(** [a /= k]: defined on tensors, not on tuples. *)
Definition py_itruediv (a : pyobj) (k : Z) : result pyobj :=
  match a with
  | PTensor x => Ok (PTensor (idiv_scalar x k))
  | _ => Raise TypeError
  end.

(** [a.argmax(dim=1)] *)
Definition py_argmax (a : pyobj) : result (list plane) :=
  match a with
  | PTensor x => argmax_dim1 x
  | _ => Raise AttributeError
  end.

(** The value of the call [self.inference(...)]: a 2-tuple. *)
Definition inference_obj (img : tensor) (img_meta : meta_arg)
    (rescale : bool) : result pyobj :=
  '(output, states) ← inference img img_meta rescale;
  Ok (PTuple [ITensor output; IStates states]).

(** The body of the loop over the views [1 .. len(imgs) - 1]. *)
Definition aug_view (imgs : list tensor) (img_metas : list meta_arg)
    (rescale : bool) (seg_logit : pyobj) (i : nat) : result pyobj :=
  img ← from_option Ok (Raise IndexError) (imgs !! i);
  meta ← from_option Ok (Raise IndexError) (img_metas !! i);
  cur_seg_logit ← inference_obj img meta rescale;
  py_iadd seg_logit cur_seg_logit.

Definition aug_test (imgs : list tensor) (img_metas : list meta_arg)
    (rescale : bool) : result (list plane) :=
  _ ← py_assert rescale;
  img0 ← first imgs;
  meta0 ← first img_metas;
  seg_logit ← inference_obj img0 meta0 rescale;
  seg_logit ← foldM (aug_view imgs img_metas rescale) seg_logit
                (seq 1 (length imgs - 1));
  seg_logit ← py_itruediv seg_logit (Z.of_nat (length imgs));
  py_argmax seg_logit.

(** The augmented test in the words of the specification: inference on
    every view, element-wise sum of the softmax outputs, division by the
    number of views, arg-max over the classes. *)
Definition aug_test_spec (imgs : list tensor) (img_metas : list meta_arg)
    (rescale : bool) : result (list plane) :=
  _ ← py_assert rescale;
  img0 ← first imgs;
  meta0 ← first img_metas;
  '(seg_logit, _) ← inference img0 meta0 rescale;
  seg_logit ←
    foldM (fun seg_logit i =>
             img ← from_option Ok (Raise IndexError) (imgs !! i);
             meta ← from_option Ok (Raise IndexError) (img_metas !! i);
             '(cur_seg_logit, _) ← inference img meta rescale;
             iadd seg_logit cur_seg_logit)
          seg_logit (seq 1 (length imgs - 1));
  argmax_dim1 (idiv_scalar seg_logit (Z.of_nat (length imgs))).

End Segmentor.

(** ** The training step *)

(** A value of the [data_batch] dictionary: a list of metadata dictionaries
    or a tensor. *)
Inductive batch_value : Type :=
| BMetas (l : list meta_dict)
| BTensor (t : tensor).

(** [len(b)] *)
Definition py_len (b : batch_value) : nat :=
  match b with
  | BMetas l => length l
  | BTensor t => tN t
  end.

(** Collaborators take tensors for images and ground truth, and lists of
    dictionaries for metadata. *)
Definition as_tensor (b : batch_value) : result tensor :=
  match b with
  | BTensor t => Ok t
  | BMetas _ => Raise TypeError
  end.

Definition as_metas (b : batch_value) : result (list meta_dict) :=
  match b with
  | BMetas l => Ok l
  | BTensor _ => Raise TypeError
  end.

(** Modelled from the spec: [rsiseg.core.add_prefix] is not among the
    sources; the spec names its result keys [src.dec.seg_logits],
    [aux_0.*]: every key [name] becomes [prefix.name]. *)
Definition add_prefix {V} (inputs : gmap string V) (prefix : string)
  : gmap string V :=
  kmap (String.app (prefix +:+ ".")) inputs.

(** [d.update(other)] *)
Definition update {V} (d other : gmap string V) : gmap string V := other ∪ d.

(** [t.permute(0, 3, 1, 2)] *)
Definition permute_0312 (t : tensor) : tensor :=
  build (tN t) (tW t) (tC t) (tH t) (fun n c h w => get t n h w c).

(** The samples of a batch, each as [data.unsqueeze(0)]. *)
Definition unbind0 (t : tensor) : list tensor :=
  map (fun s => Tensor 1 (tC t) (tH t) (tW t) [s]) (data t).

Definition same_shape (a b : tensor) : bool :=
  (tC a =? tC b)%nat && (tH a =? tH b)%nat && (tW a =? tW b)%nat.

(** [torch.stack([d.squeeze(0) for d in l], dim=0)].  Every [d] has a
    leading dimension of size 1 (see [transform_by_metas_batch_dim]), which
    [squeeze(0)] drops and [stack] replaces by the length of the list. *)
Definition stack_squeezed (l : list tensor) : result tensor :=
  match l with
  | [] => Raise RuntimeError
  | d :: rest =>
      if forallb (same_shape d) rest
      then Ok (Tensor (length l) (tC d) (tH d) (tW d) (concat (map data l)))
      else Raise RuntimeError
  end.

Inductive vis_item (value : Type) : Type :=
| VisBatch (b : batch_value)
| VisValue (v : value).
Arguments VisBatch {value} b.
Arguments VisValue {value} v.

(** An entry of the state mapping of [train_step]: a tensor of a head, or a
    tuple built for visualisation. *)
Inductive train_state (value : Type) : Type :=
| HeadState (v : value)
| VisTuple (items : list (vis_item value)).
Arguments HeadState {value} v.
Arguments VisTuple {value} items.

Record outputs (value : Type) : Type := Outputs {
  loss : Q;
  log_vars : gmap string Q;
  num_samples : nat;
  states : gmap string (train_state value)
}.
Arguments Outputs {value}.
Arguments loss {value} o.
Arguments log_vars {value} o.
Arguments num_samples {value} o.
Arguments states {value} o.

Section Training.

Context {value : Type} (self : model value).

Definition auxiliary_head_forward_train (aux : aux_heads value)
    (x : list tensor) (img_metas : list meta_dict) (gt_semantic_seg : tensor)
  : result (losses * gmap string value) :=
  match aux with
  | HeadList hs =>
      foldM (fun (acc : losses * gmap string value)
                 (entry : nat * head_train value) =>
               let '(losses, states) := acc in
               let '(idx, aux_head) := entry in
               '(loss_aux, state_aux) ← aux_head x img_metas gt_semantic_seg;
               Ok (update losses (add_prefix loss_aux ("aux_" +:+ pretty idx)),
                   update states (add_prefix state_aux ("aux_" +:+ pretty idx))))
            (∅, ∅) (zip (seq 0 (length hs)) hs)
  | SingleHead h =>
      '(loss_aux, state_aux) ← h x img_metas gt_semantic_seg;
      Ok (update ∅ (add_prefix loss_aux "aux"),
          update ∅ (add_prefix state_aux "aux"))
  end.

(** The loop aligning the precomputed target features with their images. *)
Definition align_feats (feats_trg img_metas_trg : batch_value)
  : result tensor :=
  feats_trg ← match feats_trg with
              | BTensor t => Ok (permute_0312 t)
              | BMetas _ => Raise AttributeError
              end;
  feats_trg_list ←
    match img_metas_trg with
    | BMetas ms =>
        mapM (fun '(data, metas) => transform_by_metas data metas)
             (zip (unbind0 feats_trg) ms)
    | BTensor _ => Raise RuntimeError
    end;
  stack_squeezed feats_trg_list.

(** [states[key].max(dim=1)[1].unsqueeze(1)] *)
Definition seg_mask (states : gmap string (train_state value)) (key : string)
  : result value :=
  s ← getitem states key;
  match s with
  | HeadState v => max_indices self v
  | VisTuple _ => Raise AttributeError
  end.

(** The [if self.with_auxiliary_head:] block of [train_step], on the
    [losses] and [states] accumulated so far. *)
Definition with_auxiliary_head (x_src x_trg : list tensor)
    (img_metas_src gt_src img_metas_trg gt_trg : batch_value)
    (losses : losses) (states : gmap string (train_state value))
  : result (gmap string Q * gmap string (train_state value)) :=
  match auxiliary_head self with
  | Some aux =>
      '(loss_aux_src, state_aux_src) ←
        (metas ← as_metas img_metas_src; gt ← as_tensor gt_src;
         auxiliary_head_forward_train aux x_src metas gt);
      '(loss_aux_trg, state_aux_trg) ←
        (metas ← as_metas img_metas_trg; gt ← as_tensor gt_trg;
         auxiliary_head_forward_train aux x_trg metas gt);
      let losses := update losses (add_prefix loss_aux_src "src") in
      let losses := update losses (add_prefix loss_aux_trg "trg") in
      let states :=
        update states (HeadState <$> add_prefix state_aux_src "src") in
      let states :=
        update states (HeadState <$> add_prefix state_aux_trg "trg") in
      Ok (losses, states)
  | None => Ok (losses, states)
  end.

Definition train_step (data_batch : list batch_value)
  : result (outputs value) :=
  match data_batch with
  | [img_metas_src; img_src; gt_src; img_metas_trg; img_trg; gt_trg;
     feats_trg] =>
      feats_trg ← align_feats feats_trg img_metas_trg;
      x_src ← (img ← as_tensor img_src; extract_feat self img);
      x_trg ← (img ← as_tensor img_trg; extract_feat self img);
      '(loss_dec_src, state_dec_src) ←
        (metas ← as_metas img_metas_src; gt ← as_tensor gt_src;
         decode_head_forward_train self x_src metas gt);
      '(loss_dec_trg, state_dec_trg) ←
        (metas ← as_metas img_metas_trg; gt ← as_tensor gt_trg;
         decode_head_forward_train self x_trg metas gt);
      loss_fn ← from_option Ok (Raise AttributeError) (loss_sim_feat self);
      logits_trg ← getitem state_dec_trg "seg_logits";
      '(loss_sim, state_sim_feat) ← loss_fn feats_trg logits_trg;
      logits_src ← getitem state_dec_src "seg_logits";
      logits_src ← detach self logits_src;
      let state_dec_src := <["seg_logits" := logits_src]> state_dec_src in
      logits_trg ← getitem state_dec_trg "seg_logits";
      logits_trg ← detach self logits_trg;
      let state_dec_trg := <["seg_logits" := logits_trg]> state_dec_trg in
      let losses := update ∅ loss_sim in
      let losses := update losses (add_prefix loss_dec_src "src.dec") in
      let losses := update losses (add_prefix loss_dec_trg "trg.dec") in
      let states := update ∅ (HeadState <$> add_prefix state_dec_src "src.dec") in
      let states :=
        update states (HeadState <$> add_prefix state_dec_trg "trg.dec") in
      '(losses, states) ←
        with_auxiliary_head x_src x_trg img_metas_src gt_src
          img_metas_trg gt_trg losses states;
      mask_src ← seg_mask states "src.dec.seg_logits";
      mask_trg ← seg_mask states "trg.dec.seg_logits";
      sim_feat ← getitem state_sim_feat "sim_feat";
      density ← one_minus self sim_feat;
      let states :=
        update states
          (<["vis|seg_mask_src" :=
               VisTuple [VisBatch img_src; VisBatch gt_src; VisValue mask_src]]>
           (<["vis|seg_mask_trg" :=
               VisTuple [VisBatch img_trg; VisBatch gt_trg; VisValue mask_trg]]>
            {["vis|density_sim_feat" :=
               VisTuple [VisBatch img_trg; VisValue density]]})) in
      '(loss, log_vars) ← parse_losses self losses;
      Ok (Outputs loss log_vars
            (py_len img_metas_src + py_len img_metas_trg) states)
  | _ => Raise (ValueError "unpack")
  end.

End Training.

(** *** What the training step expects of its collaborators

    A head returns losses and a state dictionary; the decode head's state
    holds ['seg_logits'], the similarity loss is configured and its state
    holds ['sim_feat']; the tensor operations and [_parse_losses] return. *)

Definition head_returns {value} (h : head_train value) : Prop :=
  forall x img_metas gt, exists l st, h x img_metas gt = Ok (l, st).

Definition collaborators_return {value} (self : model value) : Prop :=
  (forall img, exists x, extract_feat self img = Ok x) /\
  (forall x img_metas gt, exists l st v,
     decode_head_forward_train self x img_metas gt = Ok (l, st) /\
     st !! "seg_logits" = Some v) /\
  (exists loss_fn, loss_sim_feat self = Some loss_fn /\
     forall feats logits, exists l st s,
       loss_fn feats logits = Ok (l, st) /\ st !! "sim_feat" = Some s) /\
  match auxiliary_head self with
  | None => True
  | Some (SingleHead h) => head_returns h
  | Some (HeadList hs) => Forall head_returns hs
  end /\
  (forall v, exists v', detach self v = Ok v') /\
  (forall v, exists v', max_indices self v = Ok v') /\
  (forall v, exists v', one_minus self v = Ok v') /\
  (forall l, exists r, parse_losses self l = Ok r).

(** [states[key]] is a tensor a head put there. *)
Definition head_entry {value} (states : gmap string (train_state value))
    (key : string) : Prop :=
  exists v, states !! key = Some (HeadState v).

(** ** A small concrete instance

    The collaborators of [toy] pass their input through: the backbone
    returns the image as its only feature map, the decode head returns the
    first feature map, [resize] and [softmax] are the identity.  It is used
    to run the definitions above on concrete inputs. *)

Definition toy_head : head_train Q := fun x img_metas gt =>
  Ok ({["loss_seg" := 1%Q]}, {["seg_logits" := 0%Q]}).

Definition toy (cfg : test_config) (export : bool) (dbg : pdb_session)
  : model Q :=
  {| backbone := fun img => Ok [img];
     neck := None;
     decode_head_forward_test := fun x _ => first x;
     decode_head_forward_train := toy_head;
     auxiliary_head := None;
     loss_sim_feat :=
       Some (fun _ _ => Ok ({["loss_sim" := 0%Q]}, {["sim_feat" := 1%Q]}));
     parse_losses := fun l => Ok (map_fold (fun _ x acc => Qred (x + acc)) 0%Q l, l);
     resize := fun t _ => Ok t;
     softmax := fun t => t;
     detach := fun v => Ok v;
     max_indices := fun v => Ok v;
     one_minus := fun v => Ok (1 - v)%Q;
     num_classes := 3;
     test_cfg := cfg;
     in_onnx_export := export;
     debugger := dbg |}.

Definition whole_cfg : test_config := TestConfig "whole" (1, 1) (1, 1).
Definition slide_cfg : test_config := TestConfig "slide" (1, 1) (2, 2).

Definition t22 : tensor :=
  Tensor 1 1 2 2 [[ [[0%Q; 1%Q]; [2%Q; 3%Q]] ]].

Definition plain_meta : meta_dict :=
  <["ori_shape" := MSeq [2%Q; 2%Q; 1%Q]]> {["flip" := MBool false]}.

Definition flipped_meta : meta_dict :=
  <["ori_shape" := MSeq [2%Q; 2%Q; 1%Q]]>
    (<["flip_direction" := MStr "horizontal"]> {["flip" := MBool true]}).

Definition wide : tensor :=
  Tensor 1 1 2 4 [[ [[0%Q; 1%Q; 2%Q; 3%Q]; [4%Q; 5%Q; 6%Q; 7%Q]] ]].

(** [w_scale = 2], [h_scale = 1]: stretch horizontally only. *)
Definition stretch_w : meta_dict :=
  {["scale_factor" := MSeq [2%Q; 1%Q; 2%Q; 1%Q]]}.

Definition t23 : tensor :=
  Tensor 1 1 2 3 [[ [[0%Q; 1%Q; 2%Q]; [3%Q; 4%Q; 5%Q]] ]].

Definition t44 : tensor :=
  Tensor 1 1 4 4 [[ [[0%Q; 1%Q; 2%Q; 3%Q]; [4%Q; 5%Q; 6%Q; 7%Q];
                     [8%Q; 9%Q; 10%Q; 11%Q]; [12%Q; 13%Q; 14%Q; 15%Q]] ]].


(** A crop box with equal scale factors: rows 8..24, columns 0..16 of a
    [32 x 32] image. *)
Definition crop_equal : meta_dict :=
  <["crop_bbox" := MSeq [8%Q; 24%Q; 0%Q; 16%Q]]>
    (<["scale_factor" := MSeq [1%Q; 1%Q; 1%Q; 1%Q]]>
       {["ori_shape" := MSeq [32%Q; 32%Q; 3%Q]]}).

(** The configuration of the end-to-end scenario: crops of [32 x 32] every
    16 pixels. *)
Definition scenario_cfg : test_config := TestConfig "slide" (16, 16) (32, 32).

(** [t22] with its plane repeated over three classes. *)
Definition t22x3 : tensor :=
  Tensor 1 3 2 2 [[ [[0%Q; 1%Q]; [2%Q; 3%Q]]; [[0%Q; 1%Q]; [2%Q; 3%Q]];
                     [[0%Q; 1%Q]; [2%Q; 3%Q]] ]].

(** Metadata that only asks for a horizontal flip. *)
Definition mirror_meta : meta_dict := {["flip_horizontal" := MBool true]}.

(** Metadata that asks for one, two and three quarter turns. *)
Definition quarter_meta : meta_dict := {["rotate_k" := MInt 1]}.

(** [t23] after a quarter turn. *)
Definition t32 : tensor :=
  Tensor 1 1 3 2 [[ [[2%Q; 5%Q]; [1%Q; 4%Q]; [0%Q; 3%Q]] ]].

(** Metadata that asks for both flips. *)
Definition both_flips_meta : meta_dict :=
  <["flip_vertical" := MBool true]> mirror_meta.

(** A crop box without the scale factors the crop step reads. *)
Definition crop_only : meta_dict :=
  {["crop_bbox" := MSeq [0%Q; 8%Q; 0%Q; 8%Q]]}.

(** Rows 1..2, columns 0..1 of [t44]. *)
Definition t44_cropped : tensor :=
  Tensor 1 1 2 2 [[ [[4%Q; 5%Q]; [8%Q; 9%Q]] ]].

(** Crops of one pixel every three pixels: the grid leaves gaps. *)
Definition gap_cfg : test_config := TestConfig "slide" (3, 3) (1, 1).

(** No step along the width. *)
Definition zero_stride_cfg : test_config := TestConfig "slide" (1, 0) (2, 2).

(** A test mode that [inference] does not know. *)
Definition unknown_cfg : test_config := TestConfig "tile" (1, 1) (1, 1).

(** The sample and the state dictionary [simple_test] cuts out of [t22]. *)
Definition t22_sample : sample :=
  Sample 1 2 2 [ [[0%Q; 1%Q]; [2%Q; 3%Q]] ].

Definition t22_state : sample_state := SampleState [t22_sample] t22_sample.

(** [t22] moved to channel-first layout. *)
Definition t22_aligned : tensor :=
  Tensor 1 2 1 2 [[ [[0%Q; 2%Q]]; [[1%Q; 3%Q]] ]].

(** One source and one target sample. *)
Definition toy_batch : list batch_value :=
  [BMetas [∅]; BTensor t22; BTensor t22;
   BMetas [∅]; BTensor t22; BTensor t22; BTensor t22].

(** The segmentor built with [loss_sim_feat=None], the default of
    [__init__]: the attribute is never set. *)
Definition without_similarity_loss {value} (self : model value)
  : model value :=
  {| backbone := backbone self;
     neck := neck self;
     decode_head_forward_test := decode_head_forward_test self;
     decode_head_forward_train := decode_head_forward_train self;
     auxiliary_head := auxiliary_head self;
     loss_sim_feat := None;
     parse_losses := parse_losses self;
     resize := resize self;
     softmax := softmax self;
     detach := detach self;
     max_indices := max_indices self;
     one_minus := one_minus self;
     num_classes := num_classes self;
     test_cfg := test_cfg self;
     in_onnx_export := in_onnx_export self;
     debugger := debugger self |}.

(** Two auxiliary heads. *)
Definition two_heads : list (head_train Q) := [toy_head; toy_head].

(** ** Notions used in the statements below *)

(** The tensor the two flip steps of [transform_by_metas] produce, by the
    truth of the two flags. *)
Definition apply_flips (h v : bool) (t : tensor) : tensor :=
  let t := if h then flip_w_axis t else t in
  if v then flip_h_axis t else t.

(** [key in metas and metas[key]] *)
Definition flag_set (metas : meta_dict) (key : string) : bool :=
  match metas !! key with
  | Some v => truthy v
  | None => false
  end.

(** [self.test_cfg.mode in ['slide', 'whole']] *)
Definition valid_mode {value} (self : model value) : Prop :=
  mode (test_cfg self) = "slide" \/ mode (test_cfg self) = "whole".

(** The metadata list [inference] works on: the list itself, or the first
    element of the container's data (none when the data is empty). *)
Definition unwrapped (img_meta : meta_arg) : option (list meta_dict) :=
  match img_meta with
  | MetaList l => Some l
  | MetaContainer data => head data
  end.

(** A sample of a batch, held as a batch of one. *)
Definition single_sample (d : tensor) : Prop := well_formed d /\ tN d = 1%nat.

(** The name [aux_{idx}] under which head number [idx] of a list of
    auxiliary heads writes. *)
Definition aux_name (idx : nat) : string := "aux_" +:+ pretty idx.

(** No character of [s] is a dot. *)
Fixpoint no_dot (s : string) : Prop :=
  match s with
  | EmptyString => True
  | String c s' => String c "" <> "." /\ no_dot s'
  end.


(** * Properties *)

(** ** The exception monad *)

Lemma bind_Ok {A B} (a : A) (f : A -> result B) : (Ok a ≫= f) = f a.
Proof. reflexivity. Qed.

Lemma bind_Raise {A B} (e : exn) (f : A -> result B) :
  (Raise e ≫= f) = Raise e.
Proof. reflexivity. Qed.

Lemma bind_Ok_inv {A B} (m : result A) (f : A -> result B) (b : B) :
  (m ≫= f) = Ok b -> exists a, m = Ok a /\ f a = Ok b.
Proof. destruct m as [a|e]; [eauto | discriminate]. Qed.

Lemma getitem_Some {V} (d : gmap string V) key v :
  d !! key = Some v -> getitem d key = Ok v.
Proof. unfold getitem. by intros ->. Qed.

Lemma getitem_None {V} (d : gmap string V) key :
  d !! key = None -> getitem d key = Raise (KeyError key).
Proof. unfold getitem. by intros ->. Qed.

(** ** The metadata transform *)

Lemma step_scale_absent data (metas : meta_dict) :
  metas !! "scale_factor" = None -> step_scale data metas = Ok data.
Proof. unfold step_scale. by intros ->. Qed.

Lemma step_crop_absent data (metas : meta_dict) :
  metas !! "crop_bbox" = None -> step_crop data metas = Ok data.
Proof. unfold step_crop. by intros ->. Qed.

Lemma step_rotate_absent data (metas : meta_dict) :
  metas !! "rotate_k" = None -> step_rotate data metas = Ok data.
Proof. unfold step_rotate. by intros ->. Qed.

Lemma step_flip_horizontal_absent data (metas : meta_dict) :
  metas !! "flip_horizontal" = None -> step_flip_horizontal data metas = Ok data.
Proof. unfold step_flip_horizontal. by intros ->. Qed.

Lemma step_flip_vertical_absent data (metas : meta_dict) :
  metas !! "flip_vertical" = None -> step_flip_vertical data metas = Ok data.
Proof. unfold step_flip_vertical. by intros ->. Qed.

(** C1. Each of the five steps of [transform_by_metas] leaves the tensor as
    it is when its key is absent from the metadata, whatever other keys the
    dictionary holds; with none of the five keys present,
    [transform_by_metas] returns its input tensor. *)
Theorem transform_by_metas_absent_keys (data : tensor) (metas : meta_dict) :
  (metas !! "scale_factor" = None -> step_scale data metas = Ok data) /\
  (metas !! "crop_bbox" = None -> step_crop data metas = Ok data) /\
  (metas !! "rotate_k" = None -> step_rotate data metas = Ok data) /\
  (metas !! "flip_horizontal" = None ->
     step_flip_horizontal data metas = Ok data) /\
  (metas !! "flip_vertical" = None ->
     step_flip_vertical data metas = Ok data) /\
  (metas !! "scale_factor" = None -> metas !! "crop_bbox" = None ->
   metas !! "rotate_k" = None -> metas !! "flip_horizontal" = None ->
   metas !! "flip_vertical" = None ->
     transform_by_metas data metas = Ok data).
Proof.
  repeat split.
  - apply step_scale_absent.
  - apply step_crop_absent.
  - apply step_rotate_absent.
  - apply step_flip_horizontal_absent.
  - apply step_flip_vertical_absent.
  - intros Hs Hc Hr Hh Hv. unfold transform_by_metas.
    rewrite (step_scale_absent _ _ Hs), bind_Ok.
    rewrite (step_crop_absent _ _ Hc), bind_Ok.
    rewrite (step_rotate_absent _ _ Hr), bind_Ok.
    rewrite (step_flip_horizontal_absent _ _ Hh), bind_Ok.
    by apply step_flip_vertical_absent.
Qed.

Lemma transform_by_metas_absent_keys_witness :
  step_rotate t22 {["ori_shape" := MSeq [2%Q; 2%Q; 1%Q]]} = Ok t22 /\
  transform_by_metas t22 {["ori_shape" := MSeq [2%Q; 2%Q; 1%Q]]} = Ok t22.
Proof.
  destruct (transform_by_metas_absent_keys t22
              {["ori_shape" := MSeq [2%Q; 2%Q; 1%Q]]})
    as (_ & _ & Hr & _ & _ & Hall).
  split.
  - apply Hr. reflexivity.
  - apply Hall; reflexivity.
Defined.

(** A crop box without a scale factor is not skipped: the crop step reads
    [metas['scale_factor']]. *)
Lemma step_crop_needs_scale_factor data (metas : meta_dict) bbox :
  metas !! "crop_bbox" = Some bbox -> metas !! "scale_factor" = None ->
  step_crop data metas = Raise (KeyError "scale_factor").
Proof.
  intros Hb Hs. unfold step_crop. rewrite Hb.
  by rewrite (getitem_None _ _ Hs).
Qed.


(** C3, at [w_scale = 2], [h_scale = 1] and a tensor of height 2 and width
    4.  The specification asks for height 2 and width 8.  The scale step
    hands [(w_scale, h_scale)] to [F.interpolate], which reads the pair as
    (height factor, width factor): the result has height 4 and width 4.
    Its rows 1 and 2 blend the two input rows, so the resampling is not
    nearest-neighbour. *)
Theorem scale_step_swaps_factors :
  step_scale wide stretch_w =
    Ok (Tensor 1 1 4 4
          [[ [[0%Q; 1%Q; 2%Q; 3%Q]; [1%Q; 2%Q; 3%Q; 4%Q];
              [3%Q; 4%Q; 5%Q; 6%Q]; [4%Q; 5%Q; 6%Q; 7%Q]] ]]).
Proof. vm_compute. reflexivity. Qed.

(** ** The deprecated entry point *)

(** C10. [forward_train] raises the [ValueError] that points to
    [train_step], for every model and every input; it never returns a loss
    dictionary and calls no collaborator. *)
Theorem forward_train_always_raises {value : Type} (self : model value)
    (img : tensor) (img_metas : list meta_dict) (gt_semantic_seg : tensor)
    (return_states : bool) :
  forward_train self img img_metas gt_semantic_seg return_states =
    Raise (ValueError "Deprecated forward_train method! Use train_step instead")
  /\ forall l, forward_train self img img_metas gt_semantic_seg return_states
               <> Ok l.
Proof. split; [reflexivity | discriminate]. Qed.

(** ** Planes: entries, flips and transposition *)

Lemma nth_map_default {A B} (f : A -> B) (l : list A) (i : nat) (d : A) (d' : B) :
  f d = d' -> nth i (map f l) d' = f (nth i l d).
Proof. intros <-. apply map_nth. Qed.

Lemma nth_nil_default {A} (i : nat) (d : A) : nth i [] d = d.
Proof. by destruct i. Qed.

Lemma plane_ok_row h w (p : plane) i :
  plane_ok h w p -> (i < h)%nat -> length (nth i p []) = w.
Proof.
  intros [Hl Hrows] Hi. rewrite List.Forall_nth in Hrows.
  apply Hrows. lia.
Qed.

Lemma plane_ext h w (p q : plane) :
  plane_ok h w p -> plane_ok h w q ->
  (forall i j, (i < h)%nat -> (j < w)%nat -> entry p i j = entry q i j) ->
  p = q.
Proof.
  intros Hp Hq He.
  apply (nth_ext p q [] []); [destruct Hp, Hq; lia|].
  intros i Hi. assert (i < h)%nat by (destruct Hp; lia).
  apply (nth_ext _ _ 0%Q 0%Q).
  - rewrite (plane_ok_row h w p), (plane_ok_row h w q); auto.
  - intros j Hj. rewrite (plane_ok_row h w p) in Hj by auto.
    by apply He.
Qed.

Lemma plane_ok_rev h w (p : plane) : plane_ok h w p -> plane_ok h w (rev p).
Proof.
  intros [Hl Hrows]. split; [by rewrite length_rev|].
  by apply Forall_rev.
Qed.

Lemma plane_ok_map_rev h w (p : plane) :
  plane_ok h w p -> plane_ok h w (map (@rev Q) p).
Proof.
  intros [Hl Hrows]. split; [by rewrite length_map|].
  rewrite List.Forall_map. clear Hl.
  induction Hrows as [|row rows Hrow _ IH]; constructor; auto.
  by rewrite length_rev.
Qed.

Lemma plane_ok_transpose h w (p : plane) :
  length p = h -> plane_ok w h (transpose_plane w p).
Proof.
  intros Hl. unfold transpose_plane. split.
  - by rewrite length_map, length_seq.
  - rewrite List.Forall_map. generalize (seq 0 w). intros l.
    induction l as [|j l IH]; constructor; auto.
    by rewrite length_map.
Qed.

Lemma entry_transpose w (p : plane) i j :
  (j < w)%nat -> entry (transpose_plane w p) j i = entry p i j.
Proof.
  intros Hj. unfold entry, transpose_plane.
  set (column := fun j => map (fun row : list Q => nth j row 0%Q) p).
  rewrite (nth_indep _ [] (column 0%nat))
    by (rewrite length_map, length_seq; lia).
  rewrite map_nth, seq_nth by lia. cbn [Nat.add]. unfold column.
  apply (nth_map_default (fun row : list Q => nth j row 0%Q)).
  apply nth_nil_default.
Qed.

Lemma entry_rev h w (p : plane) i j :
  plane_ok h w p -> (i < h)%nat -> entry (rev p) i j = entry p (h - 1 - i) j.
Proof.
  intros [Hl _] Hi. unfold entry.
  rewrite rev_nth by lia. do 2 f_equal. lia.
Qed.

Lemma entry_map_rev h w (p : plane) i j :
  plane_ok h w p -> (i < h)%nat -> (j < w)%nat ->
  entry (map (@rev Q) p) i j = entry p i (w - 1 - j).
Proof.
  intros Hp Hi Hj. unfold entry.
  rewrite (nth_map_default _ _ _ []) by reflexivity.
  pose proof (plane_ok_row h w p i Hp Hi) as Hrow.
  rewrite rev_nth by lia. f_equal. lia.
Qed.

(** A quarter turn one way and then the other way. *)
Lemma quarter_turn_back h w (p : plane) :
  plane_ok h w p ->
  transpose_plane h (rev (transpose_plane w (map (@rev Q) p))) = p.
Proof.
  intros Hp. pose proof Hp as [Hl _].
  pose proof (plane_ok_map_rev _ _ _ Hp) as Hp1.
  pose proof (plane_ok_transpose h w (map (@rev Q) p)) as Hp2.
  rewrite length_map in Hp2. specialize (Hp2 Hl).
  pose proof (plane_ok_rev _ _ _ Hp2) as Hp3.
  apply (plane_ext h w); auto.
  { apply plane_ok_transpose. destruct Hp3; lia. }
  intros i j Hi Hj.
  rewrite entry_transpose by lia.
  rewrite (entry_rev w h) by (auto; lia).
  rewrite entry_transpose by lia.
  rewrite (entry_map_rev h w) by (auto; lia).
  f_equal. lia.
Qed.

Lemma quarter_turn_forth h w (p : plane) :
  plane_ok h w p ->
  transpose_plane h (map (@rev Q) (transpose_plane w (rev p))) = p.
Proof.
  intros Hp. pose proof Hp as [Hl _].
  pose proof (plane_ok_rev _ _ _ Hp) as Hp1.
  pose proof (plane_ok_transpose h w (rev p)) as Hp2.
  rewrite length_rev in Hp2. specialize (Hp2 Hl).
  pose proof (plane_ok_map_rev _ _ _ Hp2) as Hp3.
  apply (plane_ext h w); auto.
  { apply plane_ok_transpose. destruct Hp3; lia. }
  intros i j Hi Hj.
  rewrite entry_transpose by lia.
  rewrite (entry_map_rev w h) by (auto; lia).
  rewrite entry_transpose by lia.
  rewrite (entry_rev h w) by (auto; lia).
  f_equal. lia.
Qed.

Lemma half_turn_twice (p : plane) :
  rev (map (@rev Q) (rev (map (@rev Q) p))) = p.
Proof.
  rewrite <- map_rev, rev_involutive, map_map.
  rewrite <- (map_id p) at 2. apply map_ext. intros row.
  apply rev_involutive.
Qed.

(** A function that fixes every well-shaped plane fixes the data of a
    well-formed tensor. *)
Lemma map_planes_fixed (f : plane -> plane) (t : tensor) :
  well_formed t ->
  (forall p, plane_ok (tH t) (tW t) p -> f p = p) ->
  map (map f) (data t) = data t.
Proof.
  intros [_ Hsamples] Hf.
  induction Hsamples as [|s ss [_ Hs] _ IH]; [reflexivity|].
  cbn [map]. f_equal; [|exact IH].
  induction Hs as [|p ps Hp _ IHp]; [reflexivity|].
  cbn [map]. f_equal; auto.
Qed.

Lemma map_planes_compose (f g : plane -> plane) (d : list (list plane)) :
  map (map f) (map (map g) d) = map (map (fun p => f (g p))) d.
Proof.
  rewrite map_map. apply map_ext. intros s. apply map_map.
Qed.

Lemma rot90_round_trip (t : tensor) (k : Z) :
  well_formed t -> 0 <= k <= 3 -> rot90 (rot90 t k) ((4 - k) mod 4) = t.
Proof.
  intros Hwf Hk.
  assert (k = 0 \/ k = 1 \/ k = 2 \/ k = 3) as [-> | [-> | [-> | ->]]] by lia.
  - reflexivity.
  - pose proof (map_planes_fixed
                  (fun p => transpose_plane (tH t)
                     (rev (transpose_plane (tW t) (map (@rev Q) p)))) t Hwf
                  (quarter_turn_back _ _)) as Hfix.
    destruct t as [n c h w d]. unfold rot90.
    change (1 mod 4) with 1. change ((4 - 1) mod 4 mod 4) with 3.
    cbv iota. unfold transpose23, flip_h_axis, flip_w_axis, map_planes.
    cbn [tN tC tH tW data] in *. f_equal.
    by rewrite !map_planes_compose.
  - pose proof (map_planes_fixed
                  (fun p => rev (map (@rev Q) (rev (map (@rev Q) p)))) t Hwf
                  (fun p _ => half_turn_twice p)) as Hfix.
    destruct t as [n c h w d]. unfold rot90.
    change (2 mod 4) with 2. change ((4 - 2) mod 4 mod 4) with 2.
    cbv iota. unfold flip_h_axis, flip_w_axis, map_planes.
    cbn [tN tC tH tW data] in *. f_equal.
    by rewrite !map_planes_compose.
  - pose proof (map_planes_fixed
                  (fun p => transpose_plane (tH t)
                     (map (@rev Q) (transpose_plane (tW t) (rev p)))) t Hwf
                  (quarter_turn_forth _ _)) as Hfix.
    destruct t as [n c h w d]. unfold rot90.
    change (3 mod 4) with 3. change ((4 - 3) mod 4 mod 4) with 1.
    cbv iota. unfold transpose23, flip_h_axis, flip_w_axis, map_planes.
    cbn [tN tC tH tW data] in *. f_equal.
    by rewrite !map_planes_compose.
Qed.

Lemma step_rotate_present data (metas : meta_dict) k :
  metas !! "rotate_k" = Some (MInt k) ->
  step_rotate data metas = Ok (rot90 data k).
Proof. unfold step_rotate. by intros ->. Qed.

(** C6. For a well-formed 4-D tensor and [k] in 0..3, the rotation step
    under [rotate_k = k] succeeds, and the rotation step under
    [rotate_k = (4 - k) mod 4] applied to its result gives the original
    tensor back. *)
Theorem rotate_step_round_trip (data : tensor) (k : Z) (m1 m2 : meta_dict) :
  well_formed data -> 0 <= k <= 3 ->
  m1 !! "rotate_k" = Some (MInt k) ->
  m2 !! "rotate_k" = Some (MInt ((4 - k) mod 4)) ->
  exists rotated,
    step_rotate data m1 = Ok rotated /\ step_rotate rotated m2 = Ok data.
Proof.
  intros Hwf Hk H1 H2. exists (rot90 data k). split.
  - by apply step_rotate_present.
  - rewrite (step_rotate_present _ _ _ H2). f_equal.
    by apply rot90_round_trip.
Qed.

Lemma t23_well_formed : well_formed t23.
Proof. repeat (constructor; cbn; try reflexivity). Qed.

Lemma rotate_step_round_trip_witness :
  exists rotated,
    step_rotate t23 {["rotate_k" := MInt 1]} = Ok rotated /\
    step_rotate rotated {["rotate_k" := MInt 3]} = Ok t23.
Proof.
  apply (rotate_step_round_trip t23 1).
  - exact t23_well_formed.
  - lia.
  - reflexivity.
  - reflexivity.
Defined.

(** ** The crop step *)

(** Multiplying an integer coordinate by [1/8] and truncating is the
    integer quotient by 8 (rounded towards zero). *)
Lemma rescale_eighth (z : Z) : py_int (inject_Z z * (1 # 8))%Q = z ÷ 8.
Proof.
  unfold py_int, Qle_bool, Qceiling, Qfloor, Qmult, Qopp, inject_Z.
  cbn [Qnum Qden]. rewrite !Z.mul_1_r.
  change (Z.pos (1 * 8)) with 8. change (0 * 8) with 0.
  destruct (Z.leb_spec 0 z) as [Hz|Hz].
  - symmetry. apply Z.quot_div_nonneg; lia.
  - rewrite <- (Z.opp_involutive z) at 2.
    rewrite Z.quot_opp_l by lia. f_equal.
    symmetry. apply Z.quot_div_nonneg; lia.
Qed.





(** ** The sliding-window grid *)



(** The count buffer of the loop is the one [count_windows] computes. *)
Lemma slide_loop_count {value} (self : model value) img img_meta wins :
  forall preds count_mat preds' count_mat',
    foldM (slide_cell self img img_meta) (preds, count_mat) wins
      = Ok (preds', count_mat') ->
    count_mat' = count_windows count_mat wins.
Proof.
  induction wins as [|[[[y1 y2] x1] x2] wins IH];
    intros preds count_mat preds' count_mat' Hrun.
  - by injection Hrun as _ <-.
  - cbn [foldM] in Hrun.
    apply bind_Ok_inv in Hrun as ([preds1 count1] & Hcell & Hrest).
    unfold slide_cell in Hcell.
    apply bind_Ok_inv in Hcell as ([logit st] & _ & Hcell).
    apply bind_Ok_inv in Hcell as (preds2 & _ & Hcell).
    injection Hcell as -> <-.
    by apply IH in Hrest.
Qed.



Lemma scenario_loop_returns :
  match slide_loop (toy scenario_cfg false PdbContinue)
          (new_zeros 1 3 64 64) [plain_meta] with
  | Ok _ => True
  | Raise _ => False
  end.
Proof. vm_compute. exact I. Qed.


(** ** The inference wrapper *)

Section InferenceFacts.

Context {value : Type} (self : model value).

Lemma undo_flip_unset m0 flip output :
  truthy flip = false -> undo_flip self m0 flip output = Ok output.
Proof. unfold undo_flip. by intros ->. Qed.

Lemma undo_flip_quit m0 flip output :
  truthy flip = true -> debugger self = PdbQuit ->
  undo_flip self m0 flip output = Raise BdbQuit.
Proof.
  unfold undo_flip, pdb_set_trace. by intros -> ->.
Qed.

Lemma undo_flip_resumed (m0 : meta_dict) flip output :
  truthy flip = true -> debugger self = PdbContinue ->
  (m0 !! "flip_direction" = Some (MStr "horizontal") ->
   undo_flip self m0 flip output = Ok (flip_w_axis output)) /\
  (m0 !! "flip_direction" = Some (MStr "vertical") ->
   undo_flip self m0 flip output = Ok (flip_h_axis output)).
Proof.
  unfold undo_flip, pdb_set_trace. intros -> ->.
  split; intros Hd; by rewrite (getitem_Some _ _ _ Hd).
Qed.

Lemma inference_unfold img img_meta rescale m0 seg_logit states :
  run_strategy self img img_meta rescale = Ok (m0, seg_logit, states) ->
  inference self img img_meta rescale =
    (flip ← getitem m0 "flip";
     output ← undo_flip self m0 flip (softmax self seg_logit);
     Ok (output, states)).
Proof. unfold inference. by intros ->. Qed.

Lemma inference_inv img img_meta rescale output states :
  inference self img img_meta rescale = Ok (output, states) ->
  exists m0 seg_logit flip,
    run_strategy self img img_meta rescale = Ok (m0, seg_logit, states) /\
    m0 !! "flip" = Some flip /\
    undo_flip self m0 flip (softmax self seg_logit) = Ok output.
Proof.
  unfold inference. intros H.
  apply bind_Ok_inv in H as ([[m0 seg_logit] st] & Hrun & H).
  apply bind_Ok_inv in H as (flip & Hflip & H).
  apply bind_Ok_inv in H as (out & Hundo & H).
  injection H as -> ->.
  exists m0, seg_logit, flip. repeat split; auto.
  unfold getitem in Hflip. destruct (m0 !! "flip"); congruence.
Qed.

(** X2. When the flip flag is set and the debugger session resumes, the
    softmax output is flipped back along the width for ['horizontal'] and
    along the height for ['vertical']; when the flag is unset the softmax
    output is returned as it is. *)
Lemma inference_flip_back img img_meta rescale (m0 : meta_dict) seg_logit
    states flip :
  run_strategy self img img_meta rescale = Ok (m0, seg_logit, states) ->
  m0 !! "flip" = Some flip ->
  (truthy flip = false ->
   inference self img img_meta rescale = Ok (softmax self seg_logit, states)) /\
  (truthy flip = true -> debugger self = PdbContinue ->
   (m0 !! "flip_direction" = Some (MStr "horizontal") ->
    inference self img img_meta rescale =
      Ok (flip_w_axis (softmax self seg_logit), states)) /\
   (m0 !! "flip_direction" = Some (MStr "vertical") ->
    inference self img img_meta rescale =
      Ok (flip_h_axis (softmax self seg_logit), states))).
Proof.
  intros Hrun Hflip. rewrite (inference_unfold _ _ _ _ _ _ Hrun).
  rewrite (getitem_Some _ _ _ Hflip), bind_Ok. split.
  - intros Hf. by rewrite undo_flip_unset.
  - intros Hf Hdbg.
    destruct (undo_flip_resumed m0 flip (softmax self seg_logit) Hf Hdbg)
      as [Hh Hv].
    split; intros Hd; [rewrite (Hh Hd) | rewrite (Hv Hd)]; reflexivity.
Qed.

(** C7, on a batch whose first metadata entry has [flip] set, with the
    debugger session quit (or at end of input).  The specification asks for
    the softmax output flipped back.  [inference] stops at the breakpoint
    [pdb.set_trace()] that precedes the flip and raises [BdbQuit]: no
    probabilities are returned. *)
Theorem inference_flip_stops_at_breakpoint img img_meta rescale
    (m0 : meta_dict) seg_logit states flip :
  run_strategy self img img_meta rescale = Ok (m0, seg_logit, states) ->
  m0 !! "flip" = Some flip -> truthy flip = true ->
  debugger self = PdbQuit ->
  inference self img img_meta rescale = Raise BdbQuit.
Proof.
  intros Hrun Hflip Hf Hdbg. rewrite (inference_unfold _ _ _ _ _ _ Hrun).
  rewrite (getitem_Some _ _ _ Hflip), bind_Ok.
  by rewrite undo_flip_quit.
Qed.

Lemma run_strategy_mode img img_meta rescale r :
  run_strategy self img img_meta rescale = Ok r ->
  mode (test_cfg self) = "slide" \/ mode (test_cfg self) = "whole".
Proof.
  unfold run_strategy. intros H.
  apply bind_Ok_inv in H as ([] & Hassert & _).
  unfold py_assert in Hassert.
  destruct (bool_decide (mode (test_cfg self) = "slide")) eqn:Hs.
  - left. by apply bool_decide_eq_true in Hs.
  - destruct (bool_decide (mode (test_cfg self) = "whole")) eqn:Hw;
      [|discriminate].
    right. by apply bool_decide_eq_true in Hw.
Qed.

Lemma run_strategy_slide img img_meta rescale m0 seg_logit states :
  mode (test_cfg self) = "slide" ->
  run_strategy self img img_meta rescale = Ok (m0, seg_logit, states) ->
  states = ∅.
Proof.
  intros Hmode. unfold run_strategy. rewrite Hmode. intros H.
  apply bind_Ok_inv in H as (? & _ & H).
  apply bind_Ok_inv in H as (metas & _ & H).
  apply bind_Ok_inv in H as (m & _ & H).
  apply bind_Ok_inv in H as (ori & _ & H).
  apply bind_Ok_inv in H as (same & _ & H).
  apply bind_Ok_inv in H as (? & _ & H).
  rewrite bool_decide_eq_true_2 in H by reflexivity.
  apply bind_Ok_inv in H as ([logit st] & Hslide & H).
  apply bind_Ok_inv in Hslide as (logit' & _ & Hslide).
  by injection Hslide as _ <-; injection H as _ _ <-.
Qed.

Lemma slice_states_empty idx :
  slice_states ∅ idx = Raise (KeyError "feats").
Proof. reflexivity. Qed.

Lemma mapM_cons_inv {A B} (f : A -> result B) (l : list A) y ys :
  mapM f l = Ok (y :: ys) -> exists x l', l = x :: l' /\ f x = Ok y.
Proof.
  destruct l as [|x l']; [discriminate|]. cbn [mapM]. intros H.
  apply bind_Ok_inv in H as (y' & Hx & H).
  apply bind_Ok_inv in H as (ys' & _ & H).
  injection H as -> _. eauto.
Qed.

End InferenceFacts.

(** ** The test entry points *)

Section TestFacts.
Context {value : Type} (self : model value).

(** C9, amended.  In ['slide'] mode a call of [inference] that returns,
    returns the empty state dictionary, on which the per-sample slicing
    fails at [states['feats']] for every index.  So [simple_test] raises
    [KeyError('feats')] when it is not under ONNX export and there is at
    least one prediction map; under ONNX export it returns the 4-D
    prediction before any slicing.  A non-empty list of per-sample state
    dictionaries is only returned in ['whole'] mode. *)
Theorem simple_test_slide_states img img_meta rescale :
  (mode (test_cfg self) = "slide" ->
   forall output states,
     inference self img img_meta rescale = Ok (output, states) ->
     states = ∅ /\
     (forall idx, slice_states states idx = Raise (KeyError "feats")) /\
     (forall seg_pred, argmax_dim1 output = Ok seg_pred ->
        (in_onnx_export self = false -> seg_pred <> [] ->
         simple_test self img img_meta rescale = Raise (KeyError "feats")) /\
        (in_onnx_export self = true ->
         exists t, simple_test self img img_meta rescale = Ok (Exported t))))
  /\
  (forall seg_pred s state_list,
     simple_test self img img_meta rescale
       = Ok (Tested seg_pred (s :: state_list)) ->
     mode (test_cfg self) = "whole").
Proof.
  split.
  - intros Hmode output states Hinf.
    destruct (inference_inv self _ _ _ _ _ Hinf) as (m0 & logit & flip & Hrun & _ & _).
    pose proof (run_strategy_slide self _ _ _ _ _ _ Hmode Hrun) as ->.
    split; [reflexivity|]. split; [intros idx; apply slice_states_empty|].
    intros seg_pred Hargmax. unfold simple_test.
    rewrite Hinf, bind_Ok, Hargmax, bind_Ok. split.
    + intros -> Hne. destruct seg_pred as [|p ps]; [done|]. reflexivity.
    + intros ->. eauto.
  - intros seg_pred s state_list Htest. unfold simple_test in Htest.
    apply bind_Ok_inv in Htest as ([output states] & Hinf & Htest).
    apply bind_Ok_inv in Htest as (seg_pred' & Hargmax & Htest).
    destruct (in_onnx_export self); [discriminate|].
    apply bind_Ok_inv in Htest as (sl & Hmap & Htest).
    injection Htest as -> ->.
    destruct (inference_inv self _ _ _ _ _ Hinf) as (m0 & logit & flip & Hrun & _ & _).
    destruct (run_strategy_mode self _ _ _ _ Hrun) as [Hslide|Hwhole]; [|done].
    pose proof (run_strategy_slide self _ _ _ _ _ _ Hslide Hrun) as ->.
    apply mapM_cons_inv in Hmap as (idx & l' & _ & Hidx).
    by rewrite slice_states_empty in Hidx.
Qed.

Lemma py_iadd_tuple items (b r : pyobj) :
  py_iadd (PTuple items) b = Ok r -> exists items', r = PTuple items'.
Proof.
  destruct b as [t|items2]; [discriminate|]. cbn. intros [= <-]. eauto.
Qed.

(** C2, for a single view on which plain inference returns.  The
    specification asks for the arg-max of that inference, as
    [aug_test_spec] computes it.  [aug_test] binds the pair
    [(output, states)] that [inference] returns to [seg_logit] and then
    evaluates [seg_logit /= len(imgs)] on it: it raises [TypeError] and
    returns no prediction. *)
Theorem aug_test_single_view_raises img img_meta output states :
  inference self img img_meta true = Ok (output, states) ->
  aug_test self [img] [img_meta] true = Raise TypeError /\
  aug_test_spec self [img] [img_meta] true
    = argmax_dim1 (idiv_scalar output 1).
Proof.
  intros Hinf. split.
  - unfold aug_test. cbn [py_assert first]. rewrite !bind_Ok.
    unfold inference_obj. rewrite Hinf. reflexivity.
  - unfold aug_test_spec. cbn [py_assert first]. rewrite !bind_Ok.
    rewrite Hinf. reflexivity.
Qed.

Lemma aug_loop_tuple imgs img_metas rescale idxs : forall items r,
  foldM (aug_view self imgs img_metas rescale) (PTuple items) idxs = Ok r ->
  exists items', r = PTuple items'.
Proof.
  induction idxs as [|i idxs IH]; intros items r H.
  - injection H as <-. eauto.
  - cbn [foldM] in H. apply bind_Ok_inv in H as (acc & Hstep & H).
    unfold aug_view in Hstep.
    apply bind_Ok_inv in Hstep as (img & _ & Hstep).
    apply bind_Ok_inv in Hstep as (meta & _ & Hstep).
    apply bind_Ok_inv in Hstep as (cur & _ & Hstep).
    apply py_iadd_tuple in Hstep as (items' & ->).
    by apply IH in H.
Qed.

(** X3. With any number of views [aug_test] ends in an exception: the
    tuples that [inference] returns are concatenated by [+=], and the
    division of the resulting tuple raises. *)
Lemma aug_test_never_returns imgs img_metas rescale :
  exists e, aug_test self imgs img_metas rescale = Raise e.
Proof.
  destruct (aug_test self imgs img_metas rescale) as [r|e] eqn:H; [|eauto].
  exfalso. unfold aug_test in H.
  apply bind_Ok_inv in H as (? & _ & H).
  apply bind_Ok_inv in H as (img0 & _ & H).
  apply bind_Ok_inv in H as (meta0 & _ & H).
  apply bind_Ok_inv in H as (obj & Hobj & H).
  apply bind_Ok_inv in H as (acc & Hloop & H).
  apply bind_Ok_inv in H as (avg & Hdiv & H).
  unfold inference_obj in Hobj.
  apply bind_Ok_inv in Hobj as ([out st] & _ & Hobj). injection Hobj as <-.
  apply aug_loop_tuple in Hloop as (items' & ->).
  discriminate Hdiv.
Qed.

End TestFacts.

(** ** The training step *)

Section TrainingFacts.
Context {value : Type} (self : model value).

Lemma head_entry_update states (m : gmap string value) key :
  head_entry states key -> head_entry (update states (HeadState <$> m)) key.
Proof.
  intros [v Hv]. unfold head_entry, update.
  destruct (m !! key) as [v'|] eqn:Hm.
  - exists v'. apply lookup_union_Some_l. by rewrite lookup_fmap, Hm.
  - exists v. rewrite lookup_union_r; [done|]. by rewrite lookup_fmap, Hm.
Qed.

Lemma head_entry_prefix states (m : gmap string value) prefix name v :
  m !! name = Some v ->
  head_entry (update states (HeadState <$> add_prefix m prefix))
    ((prefix +:+ ".") +:+ name).
Proof.
  intros Hm. exists v. unfold update, add_prefix.
  apply lookup_union_Some_l. rewrite lookup_fmap.
  rewrite (lookup_kmap (String.app (prefix +:+ ".")) m name). by rewrite Hm.
Qed.

Lemma seg_mask_head_entry states key :
  (forall v, exists v', max_indices self v = Ok v') ->
  head_entry states key -> exists mask, seg_mask self states key = Ok mask.
Proof.
  intros Hmax [v Hv]. unfold seg_mask.
  rewrite (getitem_Some _ _ _ Hv), bind_Ok. apply Hmax.
Qed.

Lemma auxiliary_head_returns (aux : aux_heads value) x img_metas gt :
  match aux with
  | SingleHead h => head_returns h
  | HeadList hs => Forall head_returns hs
  end ->
  exists l st, auxiliary_head_forward_train aux x img_metas gt = Ok (l, st).
Proof.
  destruct aux as [h|hs]; intros Hc; unfold auxiliary_head_forward_train.
  - destruct (Hc x img_metas gt) as (l & st & ->). rewrite bind_Ok. eauto.
  - generalize (∅ : losses, ∅ : gmap string value). generalize 0%nat.
    induction Hc as [|h hs Hh _ IH]; intros start acc.
    + destruct acc. cbn. eauto.
    + cbn [length seq zip zip_with foldM]. destruct acc as [l0 st0].
      destruct (Hh x img_metas gt) as (l & st & ->). rewrite !bind_Ok.
      apply IH.
Qed.

Lemma with_auxiliary_head_returns x_src x_trg ms_src gt_src ms_trg gt_trg
    losses0 states0 :
  match auxiliary_head self with
  | None => True
  | Some (SingleHead h) => head_returns h
  | Some (HeadList hs) => Forall head_returns hs
  end ->
  head_entry states0 "src.dec.seg_logits" ->
  head_entry states0 "trg.dec.seg_logits" ->
  exists losses1 states1,
    with_auxiliary_head self x_src x_trg (BMetas ms_src) (BTensor gt_src)
      (BMetas ms_trg) (BTensor gt_trg) losses0 states0
      = Ok (losses1, states1) /\
    head_entry states1 "src.dec.seg_logits" /\
    head_entry states1 "trg.dec.seg_logits".
Proof.
  intros Haux Hsrc0 Htrg0. unfold with_auxiliary_head.
  destruct (auxiliary_head self) as [aux|]; [|eauto 6].
  cbn [as_metas as_tensor]. rewrite !bind_Ok.
  destruct (auxiliary_head_returns aux x_src ms_src gt_src) as (la & sa & ->).
  { by destruct aux. }
  rewrite !bind_Ok.
  destruct (auxiliary_head_returns aux x_trg ms_trg gt_trg) as (lb & sb & ->).
  { by destruct aux. }
  rewrite !bind_Ok. do 2 eexists. split; [reflexivity|].
  split; by do 2 apply head_entry_update.
Qed.

(** C8. On a batch of the seven expected values whose target features
    align with their metadata, and with collaborators that return as the
    training step expects, [train_step] returns; [num_samples] is the
    number of source samples plus the number of target samples (2 for one
    of each), and the state mapping has the keys ['vis|seg_mask_src'],
    ['vis|seg_mask_trg'] and ['vis|density_sim_feat']. *)
Theorem train_step_samples_and_vis_keys
    (ms_src ms_trg : list meta_dict)
    (img_src gt_src img_trg gt_trg feats aligned : tensor) :
  collaborators_return self ->
  align_feats (BTensor feats) (BMetas ms_trg) = Ok aligned ->
  exists out,
    train_step self [BMetas ms_src; BTensor img_src; BTensor gt_src;
                     BMetas ms_trg; BTensor img_trg; BTensor gt_trg;
                     BTensor feats] = Ok out /\
    num_samples out = (length ms_src + length ms_trg)%nat /\
    (length ms_src = 1%nat -> length ms_trg = 1%nat -> num_samples out = 2%nat) /\
    is_Some (states out !! "vis|seg_mask_src") /\
    is_Some (states out !! "vis|seg_mask_trg") /\
    is_Some (states out !! "vis|density_sim_feat").
Proof.
  intros (Hfeat & Hdec & (loss_fn & Hloss & Hsim) & Haux & Hdet & Hmax
          & Hone & Hparse) Halign.
  unfold train_step. rewrite Halign, !bind_Ok. cbn [as_tensor as_metas].
  rewrite !bind_Ok.
  destruct (Hfeat img_src) as [x_src ->]. rewrite !bind_Ok.
  destruct (Hfeat img_trg) as [x_trg ->]. rewrite !bind_Ok.
  destruct (Hdec x_src ms_src gt_src) as (l_src & st_src & v_src & -> & Hv_src).
  rewrite !bind_Ok.
  destruct (Hdec x_trg ms_trg gt_trg) as (l_trg & st_trg & v_trg & -> & Hv_trg).
  rewrite !bind_Ok.
  rewrite Hloss. cbn [from_option]. rewrite !bind_Ok.
  rewrite (getitem_Some _ _ _ Hv_trg), !bind_Ok.
  destruct (Hsim aligned v_trg) as (l_sim & st_sim & sim & -> & Hsim_feat).
  rewrite !bind_Ok.
  rewrite (getitem_Some _ _ _ Hv_src), !bind_Ok.
  destruct (Hdet v_src) as [d_src ->]. rewrite !bind_Ok.
  destruct (Hdet v_trg) as [d_trg ->]. rewrite !bind_Ok.
  set (losses0 := update (update (update ∅ l_sim) (add_prefix l_src "src.dec"))
                    (add_prefix l_trg "trg.dec")).
  set (states0 :=
         update (update ∅ (HeadState <$>
                             add_prefix (<["seg_logits" := d_src]> st_src)
                                        "src.dec"))
                (HeadState <$> add_prefix (<["seg_logits" := d_trg]> st_trg)
                                          "trg.dec")).
  assert (head_entry states0 "src.dec.seg_logits" /\
          head_entry states0 "trg.dec.seg_logits") as [Hsrc0 Htrg0].
  { split.
    - apply head_entry_update.
      apply (head_entry_prefix _ _ "src.dec" "seg_logits" d_src).
      apply lookup_insert_eq.
    - apply (head_entry_prefix _ _ "trg.dec" "seg_logits" d_trg).
      apply lookup_insert_eq. }
  destruct (with_auxiliary_head_returns x_src x_trg ms_src gt_src ms_trg gt_trg
              losses0 states0 Haux Hsrc0 Htrg0)
    as (losses1 & states1 & -> & Hsrc1 & Htrg1).
  rewrite !bind_Ok.
  destruct (seg_mask_head_entry _ _ Hmax Hsrc1) as [mask_src ->].
  destruct (seg_mask_head_entry _ _ Hmax Htrg1) as [mask_trg ->].
  rewrite !bind_Ok, (getitem_Some _ _ _ Hsim_feat), !bind_Ok.
  destruct (Hone sim) as [density ->]. rewrite !bind_Ok.
  destruct (Hparse losses1) as [[loss log_vars] ->]. rewrite !bind_Ok.
  eexists. split; [reflexivity|]. cbn [num_samples states py_len].
  split; [reflexivity|]. split; [lia|].
  unfold update.
  repeat split; eexists; apply lookup_union_Some_l; reflexivity.
Qed.
End TrainingFacts.

(** ** Shape and flip facts of the metadata transform *)

Lemma rot90_batch_dim t k : tN (rot90 t k) = tN t.
Proof. unfold rot90. repeat case_match; reflexivity. Qed.

(** [transform_by_metas] keeps the leading (batch) dimension. *)
Lemma transform_by_metas_batch_dim data (metas : meta_dict) data' :
  transform_by_metas data metas = Ok data' -> tN data' = tN data.
Proof.
  unfold transform_by_metas. intros H.
  apply bind_Ok_inv in H as (d1 & H1 & H).
  apply bind_Ok_inv in H as (d2 & H2 & H).
  apply bind_Ok_inv in H as (d3 & H3 & H).
  apply bind_Ok_inv in H as (d4 & H4 & H5).
  assert (tN d1 = tN data) as E1.
  { unfold step_scale in H1. destruct (metas !! "scale_factor"); [|congruence].
    apply bind_Ok_inv in H1 as ([[[w h] a] b] & _ & H1).
    unfold interpolate in H1. destruct (_ || _); [discriminate|].
    by injection H1 as <-. }
  assert (tN d2 = tN d1) as E2.
  { unfold step_crop in H2. destruct (metas !! "crop_bbox"); [|congruence].
    apply bind_Ok_inv in H2 as (sf & _ & H2).
    apply bind_Ok_inv in H2 as ([[[w h] a] b] & _ & H2).
    apply bind_Ok_inv in H2 as (? & _ & H2).
    apply bind_Ok_inv in H2 as (d & Hc & H2).
    apply bind_Ok_inv in H2 as (os & _ & H2).
    apply bind_Ok_inv in H2 as ([[H W] C] & _ & H2).
    injection H2 as <-. unfold proportional_crop in Hc.
    apply bind_Ok_inv in Hc as ([[[y1 y2] x1] x2] & _ & Hc).
    by injection Hc as <-. }
  assert (tN d3 = tN d2) as E3.
  { unfold step_rotate in H3. destruct (metas !! "rotate_k"); [|congruence].
    apply bind_Ok_inv in H3 as (k & _ & H3). injection H3 as <-.
    apply rot90_batch_dim. }
  assert (tN d4 = tN d3) as E4.
  { unfold step_flip_horizontal in H4.
    destruct (metas !! "flip_horizontal") as [v|]; [|congruence].
    destruct (truthy v); by injection H4 as <-. }
  assert (tN data' = tN d4) as E5.
  { unfold step_flip_vertical in H5.
    destruct (metas !! "flip_vertical") as [v|]; [|congruence].
    destruct (truthy v); by injection H5 as <-. }
  congruence.
Qed.

(** The crop of a grid cell lies inside the image, so the amounts handed to
    [F.pad] are not negative. *)
Lemma window_inside h_img w_img h_crop w_crop h_stride w_stride cell
    y1 y2 x1 x2 :
  0 <= h_img -> 0 <= w_img ->
  window h_img w_img h_crop w_crop h_stride w_stride cell = (y1, y2, x1, x2) ->
  0 <= y1 /\ 0 <= h_img - y2 /\ 0 <= x1 /\ 0 <= w_img - x2.
Proof.
  intros Hh Hw. destruct cell as [h_idx w_idx]. unfold window.
  intros [= <- <- <- <-]. lia.
Qed.

(** Flipping twice along the same axis gives the tensor back. *)
Lemma flip_w_axis_involutive t : flip_w_axis (flip_w_axis t) = t.
Proof.
  destruct t as [n c h w d]. unfold flip_w_axis, map_planes.
  cbn [tN tC tH tW data]. f_equal. rewrite map_planes_compose.
  rewrite <- (map_id d) at 2. apply map_ext. intros s.
  rewrite <- (map_id s) at 2. apply map_ext. intros p.
  rewrite map_map. rewrite <- (map_id p) at 2. apply map_ext. intros row.
  apply rev_involutive.
Qed.

Lemma flip_h_axis_involutive t : flip_h_axis (flip_h_axis t) = t.
Proof.
  destruct t as [n c h w d]. unfold flip_h_axis, map_planes.
  cbn [tN tC tH tW data]. f_equal. rewrite map_planes_compose.
  rewrite <- (map_id d) at 2. apply map_ext. intros s.
  rewrite <- (map_id s) at 2. apply map_ext. intros p.
  apply rev_involutive.
Qed.

(** X4. Metadata that only asks for a horizontal flip, applied twice,
    gives the tensor back. *)
Theorem flip_metas_twice (data : tensor) (metas : meta_dict) v :
  metas !! "scale_factor" = None -> metas !! "crop_bbox" = None ->
  metas !! "rotate_k" = None ->
  metas !! "flip_horizontal" = Some v -> truthy v = true ->
  metas !! "flip_vertical" = None ->
  exists flipped,
    transform_by_metas data metas = Ok flipped /\
    transform_by_metas flipped metas = Ok data.
Proof.
  intros Hs Hc Hr Hh Hv Hf.
  assert (forall d, transform_by_metas d metas = Ok (flip_w_axis d)) as Ht.
  { intros d. unfold transform_by_metas.
    rewrite (step_scale_absent _ _ Hs), bind_Ok.
    rewrite (step_crop_absent _ _ Hc), bind_Ok.
    rewrite (step_rotate_absent _ _ Hr), bind_Ok.
    unfold step_flip_horizontal. rewrite Hh, Hv, bind_Ok.
    by apply step_flip_vertical_absent. }
  exists (flip_w_axis data). split; [apply Ht|].
  rewrite Ht. f_equal. apply flip_w_axis_involutive.
Qed.

(** ** Reading and building tensors *)

Lemma nth_map_seq {A} (f : nat -> A) (n i : nat) (d : A) :
  (i < n)%nat -> nth i (map f (seq 0 n)) d = f i.
Proof.
  intros Hi. rewrite (nth_indep _ d (f 0%nat))
    by (rewrite length_map, length_seq; lia).
  by rewrite map_nth, seq_nth.
Qed.

Lemma entry_tabulate h w f i j :
  (i < h)%nat -> (j < w)%nat -> entry (tabulate h w f) i j = f i j.
Proof.
  intros Hi Hj. unfold entry, tabulate.
  by rewrite nth_map_seq, nth_map_seq.
Qed.

Lemma get_build n c h w f b ch i j :
  (b < n)%nat -> (ch < c)%nat -> (i < h)%nat -> (j < w)%nat ->
  get (build n c h w f) b ch i j = f b ch i j.
Proof.
  intros Hb Hch Hi Hj. unfold get, build. cbn [data].
  rewrite nth_map_seq, nth_map_seq by lia.
  by apply entry_tabulate.
Qed.

Lemma all_entries_build P n c h w f :
  (forall b ch i j, (b < n)%nat -> (ch < c)%nat -> (i < h)%nat -> (j < w)%nat ->
     P (f b ch i j) = true) ->
  all_entries P (build n c h w f) = true.
Proof.
  intros Hf. unfold all_entries, build, tabulate. cbn [data].
  apply forallb_forall. intros s [b [<- Hb%in_seq]]%in_map_iff.
  apply forallb_forall. intros p [ch [<- Hch%in_seq]]%in_map_iff.
  apply forallb_forall. intros r [i [<- Hi%in_seq]]%in_map_iff.
  apply forallb_forall. intros x [j [<- Hj%in_seq]]%in_map_iff.
  apply Hf; lia.
Qed.

Lemma add_one_at_shape t y1 y2 x1 x2 :
  tN (add_one_at t y1 y2 x1 x2) = tN t /\
  tC (add_one_at t y1 y2 x1 x2) = tC t /\
  tH (add_one_at t y1 y2 x1 x2) = tH t /\
  tW (add_one_at t y1 y2 x1 x2) = tW t.
Proof.
  unfold add_one_at. destruct (slice_bounds y1 y2 _), (slice_bounds x1 x2 _).
  by cbn.
Qed.

Lemma add_one_at_is_build t y1 y2 x1 x2 : is_build (add_one_at t y1 y2 x1 x2).
Proof.
  unfold is_build, add_one_at.
  destruct (slice_bounds y1 y2 _), (slice_bounds x1 x2 _). cbn. eauto.
Qed.

Lemma get_add_one_at t y1 y2 x1 x2 b ch i j :
  in_bounds t b ch i j ->
  get (add_one_at t y1 y2 x1 x2) b ch i j =
    if covers (tH t) (tW t) (y1, y2, x1, x2) i j
    then Qred (get t b ch i j + 1) else get t b ch i j.
Proof.
  intros (Hb & Hch & Hi & Hj). unfold add_one_at, covers.
  destruct (slice_bounds y1 y2 _), (slice_bounds x1 x2 _).
  by rewrite get_build.
Qed.

Lemma count_windows_cons t y1 y2 x1 x2 wins :
  count_windows t ((y1, y2, x1, x2) :: wins) =
    count_windows (add_one_at t y1 y2 x1 x2) wins.
Proof. reflexivity. Qed.

Lemma count_windows_shape wins : forall t,
  tN (count_windows t wins) = tN t /\ tC (count_windows t wins) = tC t /\
  tH (count_windows t wins) = tH t /\ tW (count_windows t wins) = tW t.
Proof.
  induction wins as [|[[[y1 y2] x1] x2] wins IH]; intros t; [done|].
  rewrite count_windows_cons.
  destruct (IH (add_one_at t y1 y2 x1 x2)) as (-> & -> & -> & ->).
  apply add_one_at_shape.
Qed.

Lemma count_windows_is_build wins : forall t,
  is_build t -> is_build (count_windows t wins).
Proof.
  induction wins as [|[[[y1 y2] x1] x2] wins IH]; intros t Ht; [done|].
  rewrite count_windows_cons. apply IH, add_one_at_is_build.
Qed.

Lemma all_entries_is_build P t :
  is_build t ->
  (forall b ch i j, in_bounds t b ch i j -> P (get t b ch i j) = true) ->
  all_entries P t = true.
Proof.
  intros [f Hf] HP. rewrite Hf. apply all_entries_build.
  intros b ch i j Hb Hch Hi Hj.
  rewrite <- (get_build (tN t) (tC t) (tH t) (tW t)) by done.
  rewrite <- Hf. by apply HP.
Qed.

(** Counting never decreases an entry, and a window that covers a pixel
    raises its count to 1 at least. *)
Lemma count_windows_covered wins : forall t b ch i j,
  in_bounds t b ch i j ->
  (forall b ch i j, in_bounds t b ch i j -> (0 <= get t b ch i j)%Q) ->
  (1 <= get t b ch i j)%Q \/
    (exists win, In win wins /\ covers (tH t) (tW t) win i j = true) ->
  (1 <= get (count_windows t wins) b ch i j)%Q.
Proof.
  induction wins as [|[[[y1 y2] x1] x2] wins IH];
    intros t b ch i j Hin Hpos Hcov.
  - destruct Hcov as [H|(win & [] & _)]. exact H.
  - rewrite count_windows_cons.
    destruct (add_one_at_shape t y1 y2 x1 x2) as (EN & EC & EH & EW).
    assert (forall b ch i j, in_bounds (add_one_at t y1 y2 x1 x2) b ch i j ->
              in_bounds t b ch i j) as Hback.
    { unfold in_bounds. rewrite EN, EC, EH, EW. auto. }
    apply IH.
    + unfold in_bounds. by rewrite EN, EC, EH, EW.
    + intros b' ch' i' j' Hin'. apply Hback in Hin'.
      rewrite get_add_one_at by done. specialize (Hpos _ _ _ _ Hin').
      destruct (covers _ _ _ _ _); [|done].
      rewrite Qred_correct. change 0%Q with (0 + 0)%Q.
      apply Qplus_le_compat; [done | discriminate].
    + rewrite get_add_one_at by done. rewrite EH, EW.
      specialize (Hpos _ _ _ _ Hin).
      destruct Hcov as [H|(win & [<-|Hwin] & Hc)].
      * left. destruct (covers _ _ _ _ _); [|done].
        rewrite Qred_correct.
        apply Qle_trans with (get t b ch i j); [done|].
        rewrite <- (Qplus_0_r (get t b ch i j)) at 1.
        apply Qplus_le_compat; [apply Qle_refl | discriminate].
      * left. rewrite Hc, Qred_correct.
        rewrite <- (Qplus_0_l 1) at 1.
        apply Qplus_le_compat; [done | apply Qle_refl].
      * right. eauto.
Qed.

(** Along one axis: with a stride no larger than the crop, every position
    lies in the crop of some grid cell. *)
Lemma axis_covered (len crop stride i : Z) :
  0 < stride <= crop -> 0 <= i < len ->
  exists k, 0 <= k < Z.max (len - crop + stride - 1) 0 / stride + 1 /\
    Z.max (Z.min (k * stride + crop) len - crop) 0 <= i
      < Z.min (k * stride + crop) len.
Proof.
  intros Hs Hi.
  set (a := Z.max (len - crop + stride - 1) 0).
  pose proof (Z.div_mod a stride ltac:(lia)) as Ha.
  pose proof (Z.mod_pos_bound a stride ltac:(lia)) as Har.
  pose proof (Z.div_mod i stride ltac:(lia)) as Hq.
  pose proof (Z.mod_pos_bound i stride ltac:(lia)) as Hqr.
  assert (0 <= a / stride) by (apply Z.div_pos; lia).
  assert (0 <= i / stride) by (apply Z.div_pos; lia).
  destruct (Z.le_gt_cases (i / stride) (a / stride)) as [Hle|Hgt].
  - exists (i / stride). split; [lia|]. nia.
  - exists (a / stride). split; [lia|]. nia.
Qed.

Lemma elem_of_range k n : In k (range n) <-> 0 <= k < n.
Proof.
  unfold range. rewrite in_map_iff. split.
  - intros (m & <- & Hm%in_seq). lia.
  - intros Hk. exists (Z.to_nat k). rewrite in_seq. lia.
Qed.

Lemma elem_of_cells kh kw gh gw :
  0 <= kh < gh -> 0 <= kw < gw -> In (kh, kw) (cells gh gw).
Proof.
  intros Hh Hw. apply list_elem_of_In. unfold cells.
  apply list_elem_of_bind. exists kh. split.
  - apply list_elem_of_bind. exists kw. split; [apply list_elem_of_singleton; done|].
    by apply list_elem_of_In, elem_of_range.
  - by apply list_elem_of_In, elem_of_range.
Qed.

Lemma slice_bounds_inside y1 y2 len :
  0 <= y1 <= Z.of_nat len -> 0 <= y2 <= Z.of_nat len ->
  slice_bounds y1 y2 len = (Z.to_nat y1, Z.to_nat y2).
Proof.
  intros H1 H2. unfold slice_bounds.
  destruct (Z.ltb_spec y1 0), (Z.ltb_spec y2 0); try lia.
  f_equal; lia.
Qed.

(** With strides no larger than the crop, every pixel lies in the crop of
    some grid cell. *)
Lemma pixel_covered (h w : nat) hc wc hs ws (i j : nat) :
  0 < hs <= hc -> 0 < ws <= wc -> (i < h)%nat -> (j < w)%nat ->
  exists cell,
    In cell (cells (Z.max (Z.of_nat h - hc + hs - 1) 0 / hs + 1)
                   (Z.max (Z.of_nat w - wc + ws - 1) 0 / ws + 1)) /\
    covers h w (window (Z.of_nat h) (Z.of_nat w) hc wc hs ws cell) i j = true.
Proof.
  intros Hhs Hws Hi Hj.
  destruct (axis_covered (Z.of_nat h) hc hs (Z.of_nat i)) as (kh & Hkh & Hy);
    [lia | lia |].
  destruct (axis_covered (Z.of_nat w) wc ws (Z.of_nat j)) as (kw & Hkw & Hx);
    [lia | lia |].
  exists (kh, kw). split; [by apply elem_of_cells|].
  unfold covers, window.
  rewrite !slice_bounds_inside by lia.
  repeat (apply andb_true_intro; split);
    first [apply Nat.leb_le | apply Nat.ltb_lt]; lia.
Qed.

Section Coverage.
Context {value : Type} (self : model value).

(** X1. Whatever the image, when the stride is positive and no larger
    than the crop along both axes, every entry of the count buffer is at
    least 1 once the loops of [slide_inference] have run: the coverage
    assertion passes. *)
Theorem slide_coverage_general img img_meta preds count_mat hs ws hc wc :
  stride (test_cfg self) = (hs, ws) ->
  crop_size (test_cfg self) = (hc, wc) ->
  0 < hs <= hc -> 0 < ws <= wc ->
  slide_loop self img img_meta = Ok (preds, count_mat) ->
  all_entries (Qle_bool 1) count_mat = true /\
  py_assert (no_zero_entry count_mat) = Ok tt.
Proof.
  intros Hstride Hcrop Hhs Hws Hloop. unfold slide_loop in Hloop.
  rewrite Hstride, Hcrop in Hloop. unfold grids in Hloop.
  destruct (Z.eqb_spec hs 0) as [?|_]; [lia|].
  destruct (Z.eqb_spec ws 0) as [?|_]; [lia|].
  rewrite !bind_Ok in Hloop.
  apply slide_loop_count in Hloop. subst count_mat.
  set (wins := map _ _).
  set (zeros := new_zeros (tN img) 1 (tH img) (tW img)).
  assert (is_build zeros) as Hbuild by (unfold is_build, zeros, new_zeros; cbn; eauto).
  assert (forall b ch i j, in_bounds (count_windows zeros wins) b ch i j ->
            (1 <= get (count_windows zeros wins) b ch i j)%Q) as Hone.
  { intros b ch i j Hin.
    destruct (count_windows_shape wins zeros) as (EN & EC & EH & EW).
    unfold in_bounds in Hin. rewrite EN, EC, EH, EW in Hin.
    apply count_windows_covered; [done | |].
    - intros b' ch' i' j' (Hb & Hch & Hi & Hj).
      unfold zeros, new_zeros. rewrite get_build by done. apply Qle_refl.
    - right. destruct Hin as (_ & _ & Hi & Hj). cbn in Hi, Hj.
      destruct (pixel_covered (tH img) (tW img) hc wc hs ws i j Hhs Hws Hi Hj)
        as (cell & Hcell & Hcov).
      exists (window (Z.of_nat (tH img)) (Z.of_nat (tW img)) hc wc hs ws cell).
      split; [|exact Hcov]. unfold wins. by apply in_map. }
  assert (all_entries (Qle_bool 1) (count_windows zeros wins) = true) as Hall.
  { apply all_entries_is_build; [by apply count_windows_is_build|].
    intros b ch i j Hin. apply Qle_bool_iff. by apply Hone. }
  split; [exact Hall|].
  assert (no_zero_entry (count_windows zeros wins) = true) as ->; [|done].
  unfold no_zero_entry.
  apply all_entries_is_build; [by apply count_windows_is_build|].
  intros b ch i j Hin. apply negb_true_iff.
  destruct (Qeq_bool _ 0) eqn:Hz; [|done].
  apply Qeq_bool_iff in Hz. specialize (Hone _ _ _ _ Hin).
  rewrite Hz in Hone. by destruct Hone.
Qed.
End Coverage.

(** ** Instances *)

Lemma toy_whole_flipped_strategy dbg :
  run_strategy (toy whole_cfg false dbg) t22 (MetaList [flipped_meta]) true
    = Ok (flipped_meta, t22,
          <["seg_logits" := SegLogits t22]> {["feats" := Feats [t22]]}).
Proof. vm_compute. reflexivity. Qed.

Lemma inference_flip_stops_at_breakpoint_witness :
  inference (toy whole_cfg false PdbQuit) t22 (MetaList [flipped_meta]) true
    = Raise BdbQuit.
Proof.
  apply (inference_flip_stops_at_breakpoint _ _ _ _ _ _ _ (MBool true)
           (toy_whole_flipped_strategy PdbQuit)); reflexivity.
Defined.

Lemma toy_whole_inference :
  inference (toy whole_cfg false PdbContinue) t22 (MetaList [plain_meta]) true
    = Ok (t22, <["seg_logits" := SegLogits t22]> {["feats" := Feats [t22]]}).
Proof. vm_compute. reflexivity. Qed.

Lemma aug_test_single_view_raises_witness :
  aug_test (toy whole_cfg false PdbContinue) [t22] [MetaList [plain_meta]] true
    = Raise TypeError /\
  aug_test_spec (toy whole_cfg false PdbContinue) [t22]
    [MetaList [plain_meta]] true = Ok [[[0%Q; 0%Q]; [0%Q; 0%Q]]].
Proof.
  destruct (aug_test_single_view_raises _ _ _ _ _ toy_whole_inference)
    as [Hcode Hspec].
  split; [exact Hcode|]. rewrite Hspec. reflexivity.
Defined.

(** C9 without its amendment fails: under ONNX export a call of
    [simple_test] in ['slide'] mode returns its prediction, since the
    export branch returns before the state slicing. *)
Lemma simple_test_slide_export_returns :
  ~ (forall (self : model Q) img img_meta rescale,
       mode (test_cfg self) = "slide" ->
       exists e, simple_test self img img_meta rescale = Raise e).
Proof.
  intros Hall.
  destruct (Hall (toy slide_cfg true PdbContinue) t22
              (MetaList [plain_meta]) true eq_refl) as [e He].
  vm_compute in He. discriminate He.
Qed.

Lemma toy_slide_inference export :
  inference (toy slide_cfg export PdbContinue) t22 (MetaList [plain_meta]) true
    = Ok (t22x3, ∅).
Proof. destruct export; vm_compute; reflexivity. Qed.

Lemma t22x3_argmax : argmax_dim1 t22x3 = Ok [[[0%Q; 0%Q]; [0%Q; 0%Q]]].
Proof. vm_compute. reflexivity. Qed.

Lemma simple_test_slide_states_witness :
  simple_test (toy slide_cfg false PdbContinue) t22 (MetaList [plain_meta]) true
    = Raise (KeyError "feats") /\
  exists t, simple_test (toy slide_cfg true PdbContinue) t22
              (MetaList [plain_meta]) true = Ok (Exported t).
Proof.
  split.
  - destruct (simple_test_slide_states (toy slide_cfg false PdbContinue) t22
                (MetaList [plain_meta]) true) as [Hslide _].
    destruct (Hslide eq_refl _ _ (toy_slide_inference false))
      as (_ & _ & Hpred).
    destruct (Hpred _ t22x3_argmax) as [Hraise _].
    apply Hraise; [reflexivity | discriminate].
  - destruct (simple_test_slide_states (toy slide_cfg true PdbContinue) t22
                (MetaList [plain_meta]) true) as [Hslide _].
    destruct (Hslide eq_refl _ _ (toy_slide_inference true))
      as (_ & _ & Hpred).
    destruct (Hpred _ t22x3_argmax) as [_ Hexport].
    apply Hexport. reflexivity.
Defined.

Lemma toy_collaborators_return cfg export dbg :
  collaborators_return (toy cfg export dbg).
Proof.
  unfold collaborators_return, head_returns. cbn.
  split; [eauto|]. split.
  { intros. do 3 eexists. split; reflexivity. }
  split.
  { eexists. split; [reflexivity|]. intros. do 3 eexists. split; reflexivity. }
  repeat split; eauto.
Qed.

Lemma toy_align_feats :
  align_feats (BTensor t22) (BMetas [∅])
    = Ok (Tensor 1 2 1 2 [[ [[0%Q; 2%Q]]; [[1%Q; 3%Q]] ]]).
Proof. vm_compute. reflexivity. Qed.

Lemma train_step_samples_and_vis_keys_witness :
  exists out,
    train_step (toy whole_cfg false PdbContinue)
      [BMetas [∅]; BTensor t22; BTensor t22;
       BMetas [∅]; BTensor t22; BTensor t22; BTensor t22] = Ok out /\
    num_samples out = 2%nat /\
    is_Some (states out !! "vis|seg_mask_src") /\
    is_Some (states out !! "vis|seg_mask_trg") /\
    is_Some (states out !! "vis|density_sim_feat").
Proof.
  destruct (train_step_samples_and_vis_keys (toy whole_cfg false PdbContinue)
              [∅] [∅] t22 t22 t22 t22 t22 _
              (toy_collaborators_return _ _ _) toy_align_feats)
    as (out & Hout & _ & Htwo & Hsrc & Htrg & Hdens).
  exists out. repeat split; auto.
Defined.

Lemma inference_flip_back_witness :
  inference (toy whole_cfg false PdbContinue) t22 (MetaList [flipped_meta]) true
    = Ok (flip_w_axis t22,
          <["seg_logits" := SegLogits t22]> {["feats" := Feats [t22]]}).
Proof.
  destruct (inference_flip_back _ _ _ _ _ _ _ (MBool true)
              (toy_whole_flipped_strategy PdbContinue) eq_refl)
    as [_ Hset].
  destruct (Hset eq_refl eq_refl) as [Hhorizontal _].
  apply Hhorizontal. reflexivity.
Defined.

Lemma flip_metas_twice_witness :
  exists flipped,
    transform_by_metas t22 mirror_meta = Ok flipped /\
    transform_by_metas flipped mirror_meta = Ok t22.
Proof.
  apply (flip_metas_twice t22 mirror_meta (MBool true)); reflexivity.
Defined.


Lemma slide_coverage_general_witness :
  match slide_loop (toy scenario_cfg false PdbContinue)
          (new_zeros 1 3 64 64) [plain_meta] with
  | Ok (_, count_mat) => py_assert (no_zero_entry count_mat) = Ok tt
  | Raise _ => False
  end.
Proof.
  pose proof scenario_loop_returns as Hret.
  pose proof (slide_coverage_general (toy scenario_cfg false PdbContinue)
                (new_zeros 1 3 64 64) [plain_meta]) as Hcov.
  destruct (slide_loop _ _ _) as [[preds count_mat]|e]; [|exact Hret].
  apply (Hcov preds count_mat 16 16 32 32); [reflexivity | reflexivity | lia | lia | reflexivity].
Defined.

(** With a stride larger than the crop the grid leaves gaps: for a row of
    10 pixels, crops of width 2 and a stride of 5, pixels 2 to 4 are in no
    crop and the coverage assertion fails. *)
Lemma coverage_gap_when_stride_exceeds_crop :
  grids 10 2 5 = Ok 3 /\
  py_assert (no_zero_entry
               (count_windows (new_zeros 1 1 1 10)
                  (map (window 1 10 1 2 1 5) (cells 1 3))))
    = Raise AssertionError.
Proof. split; vm_compute; reflexivity. Qed.

(** ** Well-formedness through the metadata transform *)

Lemma well_formed_map_planes (f : plane -> plane) (t : tensor) (h w : nat) :
  well_formed t ->
  (forall p, plane_ok (tH t) (tW t) p -> plane_ok h w (f p)) ->
  well_formed (Tensor (tN t) (tC t) h w (map_planes f t)).
Proof.
  intros [Hn Hs] Hf. unfold well_formed, map_planes. cbn [tN tC tH tW data].
  split; [by rewrite length_map|].
  rewrite List.Forall_map. eapply List.Forall_impl; [|exact Hs].
  intros s [Hc Hp]. split; [by rewrite length_map|].
  rewrite List.Forall_map. eapply List.Forall_impl; [|exact Hp].
  exact Hf.
Qed.

Lemma slice_bounds_le a b len :
  (fst (slice_bounds a b len) <= len)%nat /\
  (snd (slice_bounds a b len) <= len)%nat.
Proof.
  unfold slice_bounds. cbn [fst snd].
  destruct (Z.ltb_spec a 0), (Z.ltb_spec b 0); lia.
Qed.

Lemma length_py_slice {A} a b (l : list A) :
  length (py_slice a b l) = slice_len a b (length l).
Proof.
  unfold py_slice, slice_len.
  pose proof (slice_bounds_le a b (length l)) as [Hlo Hhi].
  destruct (slice_bounds a b (length l)) as [lo hi]. cbn [fst snd] in *.
  rewrite length_take, length_drop. lia.
Qed.

Lemma slice_len_le a b len : (slice_len a b len <= len)%nat.
Proof.
  unfold slice_len.
  pose proof (slice_bounds_le a b len) as [Hlo Hhi].
  destruct (slice_bounds a b len) as [lo hi]. cbn [fst snd] in *. lia.
Qed.

Lemma Forall_py_slice {A} (P : A -> Prop) a b (l : list A) :
  Forall P l -> Forall P (py_slice a b l).
Proof.
  intros Hl. unfold py_slice. destruct (slice_bounds a b (length l)).
  by apply Forall_take, Forall_drop.
Qed.

Lemma plane_ok_slice h w (p : plane) y1 y2 x1 x2 :
  plane_ok h w p ->
  plane_ok (slice_len y1 y2 h) (slice_len x1 x2 w)
    (map (py_slice x1 x2) (py_slice y1 y2 p)).
Proof.
  intros [Hl Hrows]. split.
  - by rewrite length_map, length_py_slice, Hl.
  - rewrite List.Forall_map. apply Forall_py_slice.
    eapply List.Forall_impl; [|exact Hrows].
    intros row <-. apply length_py_slice.
Qed.

Lemma plane_ok_tabulate h w f : plane_ok h w (tabulate h w f).
Proof.
  unfold tabulate. split; [by rewrite length_map, length_seq|].
  rewrite List.Forall_map. apply List.Forall_forall. intros i _.
  by rewrite length_map, length_seq.
Qed.

Lemma well_formed_flip_h_axis t : well_formed t -> well_formed (flip_h_axis t).
Proof.
  intros Hwf. apply well_formed_map_planes; [done|]. apply plane_ok_rev.
Qed.

Lemma well_formed_flip_w_axis t : well_formed t -> well_formed (flip_w_axis t).
Proof.
  intros Hwf. apply well_formed_map_planes; [done|]. apply plane_ok_map_rev.
Qed.

Lemma well_formed_transpose23 t : well_formed t -> well_formed (transpose23 t).
Proof.
  intros Hwf. apply well_formed_map_planes; [done|].
  intros p [Hp _]. by apply plane_ok_transpose.
Qed.

Lemma well_formed_rot90 t k : well_formed t -> well_formed (rot90 t k).
Proof.
  intros Hwf. unfold rot90.
  repeat case_match; auto using well_formed_flip_h_axis,
    well_formed_flip_w_axis, well_formed_transpose23.
Qed.

Lemma well_formed_index_hw t y1 y2 x1 x2 :
  well_formed t -> well_formed (index_hw t y1 y2 x1 x2).
Proof.
  intros Hwf. apply well_formed_map_planes; [done|].
  intros p. apply plane_ok_slice.
Qed.

Lemma well_formed_interpolate t s t' :
  well_formed t -> interpolate t s = Ok t' -> well_formed t'.
Proof.
  intros Hwf. unfold interpolate. destruct s as [s2 s3].
  destruct (_ || _); [discriminate|]. intros [= <-].
  apply well_formed_map_planes; [done|].
  intros p _. apply plane_ok_tabulate.
Qed.

(** What each step does to the tensor it is given. *)
Lemma step_scale_inv data (metas : meta_dict) data' :
  step_scale data metas = Ok data' ->
  data' = data \/ exists s, interpolate data s = Ok data'.
Proof.
  unfold step_scale. destruct (metas !! "scale_factor"); [|left; congruence].
  intros H. apply bind_Ok_inv in H as ([[[w h] a] b] & _ & H). eauto.
Qed.

Lemma step_crop_inv data (metas : meta_dict) data' :
  step_crop data metas = Ok data' ->
  data' = data \/ exists y1 y2 x1 x2, data' = index_hw data y1 y2 x1 x2.
Proof.
  unfold step_crop. destruct (metas !! "crop_bbox"); [|left; congruence].
  intros H. apply bind_Ok_inv in H as (sf & _ & H).
  apply bind_Ok_inv in H as ([[[w h] a] b] & _ & H).
  apply bind_Ok_inv in H as (? & _ & H).
  apply bind_Ok_inv in H as (d & Hc & H).
  apply bind_Ok_inv in H as (os & _ & H).
  apply bind_Ok_inv in H as ([[H0 W0] C0] & _ & H).
  injection H as <-. unfold proportional_crop in Hc.
  apply bind_Ok_inv in Hc as ([[[y1 y2] x1] x2] & _ & Hc).
  injection Hc as <-. right. eauto.
Qed.

Lemma step_rotate_inv data (metas : meta_dict) data' :
  step_rotate data metas = Ok data' ->
  data' = data \/ exists k, data' = rot90 data k.
Proof.
  unfold step_rotate. destruct (metas !! "rotate_k"); [|left; congruence].
  intros H. apply bind_Ok_inv in H as (k & _ & H). injection H as <-. eauto.
Qed.

Lemma step_flip_horizontal_inv data (metas : meta_dict) data' :
  step_flip_horizontal data metas = Ok data' ->
  data' = data \/ data' = flip_w_axis data.
Proof.
  unfold step_flip_horizontal.
  destruct (metas !! "flip_horizontal") as [v|]; [|left; congruence].
  destruct (truthy v); intros [= <-]; auto.
Qed.

Lemma step_flip_vertical_inv data (metas : meta_dict) data' :
  step_flip_vertical data metas = Ok data' ->
  data' = data \/ data' = flip_h_axis data.
Proof.
  unfold step_flip_vertical.
  destruct (metas !! "flip_vertical") as [v|]; [|left; congruence].
  destruct (truthy v); intros [= <-]; auto.
Qed.

Lemma rot90_channels t k : tC (rot90 t k) = tC t.
Proof. unfold rot90. repeat case_match; reflexivity. Qed.

Lemma transform_by_metas_invariant data (metas : meta_dict) data' :
  well_formed data ->
  transform_by_metas data metas = Ok data' ->
  well_formed data' /\ tN data' = tN data /\ tC data' = tC data.
Proof.
  intros Hwf H. unfold transform_by_metas in H.
  apply bind_Ok_inv in H as (d1 & H1 & H).
  apply bind_Ok_inv in H as (d2 & H2 & H).
  apply bind_Ok_inv in H as (d3 & H3 & H).
  apply bind_Ok_inv in H as (d4 & H4 & H5).
  assert (well_formed d1 /\ tN d1 = tN data /\ tC d1 = tC data) as (W1 & N1 & C1).
  { apply step_scale_inv in H1 as [->|[s Hs]]; [split; [assumption | split; reflexivity]|].
    split; [by eapply well_formed_interpolate|].
    unfold interpolate in Hs. destruct s. destruct (_ || _); [discriminate|].
    by injection Hs as <-. }
  assert (well_formed d2 /\ tN d2 = tN d1 /\ tC d2 = tC d1) as (W2 & N2 & C2).
  { apply step_crop_inv in H2 as [->|(y1 & y2 & x1 & x2 & ->)]; [split; [assumption | split; reflexivity]|].
    split; [by apply well_formed_index_hw | split; reflexivity]. }
  assert (well_formed d3 /\ tN d3 = tN d2 /\ tC d3 = tC d2) as (W3 & N3 & C3).
  { apply step_rotate_inv in H3 as [->|(k & ->)]; [split; [assumption | split; reflexivity]|].
    split; [by apply well_formed_rot90|].
    split; [apply rot90_batch_dim | apply rot90_channels]. }
  assert (well_formed d4 /\ tN d4 = tN d3 /\ tC d4 = tC d3) as (W4 & N4 & C4).
  { apply step_flip_horizontal_inv in H4 as [->| ->]; [split; [assumption | split; reflexivity]|].
    split; [by apply well_formed_flip_w_axis | split; reflexivity]. }
  assert (well_formed data' /\ tN data' = tN d4 /\ tC data' = tC d4)
    as (W5 & N5 & C5).
  { apply step_flip_vertical_inv in H5 as [->| ->]; [split; [assumption | split; reflexivity]|].
    split; [by apply well_formed_flip_h_axis | split; reflexivity]. }
  split; [exact W5|]. split; congruence.
Qed.

Lemma rot90_shape t k :
  (tH (rot90 t k) = tH t /\ tW (rot90 t k) = tW t) \/
  (tH (rot90 t k) = tW t /\ tW (rot90 t k) = tH t).
Proof. unfold rot90. repeat case_match; cbn; auto. Qed.

(** X6. [transform_by_metas] keeps a well-formed 4-D tensor well-formed,
    and keeps its batch size and its number of channels, whatever the
    metadata.  Without ['scale_factor'] and ['crop_bbox'] it only moves
    pixels: the height and the width are kept or, by a quarter turn,
    exchanged. *)
Theorem transform_by_metas_well_formed data (metas : meta_dict) data' :
  well_formed data ->
  transform_by_metas data metas = Ok data' ->
  well_formed data' /\ tN data' = tN data /\ tC data' = tC data /\
  (metas !! "scale_factor" = None -> metas !! "crop_bbox" = None ->
   (tH data' = tH data /\ tW data' = tW data) \/
   (tH data' = tW data /\ tW data' = tH data)).
Proof.
  intros Hwf H.
  destruct (transform_by_metas_invariant _ _ _ Hwf H) as (W & N & C).
  split; [exact W|]. split; [exact N|]. split; [exact C|].
  intros Hs Hc. unfold transform_by_metas in H.
  rewrite (step_scale_absent _ _ Hs), bind_Ok in H.
  rewrite (step_crop_absent _ _ Hc), bind_Ok in H.
  apply bind_Ok_inv in H as (d3 & H3 & H).
  apply bind_Ok_inv in H as (d4 & H4 & H5).
  assert (tH data' = tH d3 /\ tW data' = tW d3) as [-> ->].
  { apply step_flip_horizontal_inv in H4 as [-> | ->];
      apply step_flip_vertical_inv in H5 as [-> | ->]; split; reflexivity. }
  apply step_rotate_inv in H3 as [-> | (k & ->)];
    [left; split; reflexivity | apply rot90_shape].
Qed.

(** ** Rotations compose *)








(** ** Flips *)

Lemma flips_commute t : flip_h_axis (flip_w_axis t) = flip_w_axis (flip_h_axis t).
Proof.
  destruct t as [n c h w d]. unfold flip_h_axis, flip_w_axis, map_planes.
  cbn [tN tC tH tW data]. f_equal. rewrite !map_planes_compose.
  apply map_ext. intros s. apply map_ext. intros p. symmetry. apply map_rev.
Qed.

Lemma apply_flips_twice h v t : apply_flips h v (apply_flips h v t) = t.
Proof.
  unfold apply_flips. destruct h, v; try reflexivity.
  - rewrite <- flips_commute, flip_h_axis_involutive.
    apply flip_w_axis_involutive.
  - apply flip_w_axis_involutive.
  - apply flip_h_axis_involutive.
Qed.

Lemma transform_flips_only data (metas : meta_dict) :
  metas !! "scale_factor" = None -> metas !! "crop_bbox" = None ->
  metas !! "rotate_k" = None ->
  transform_by_metas data metas =
    Ok (apply_flips (flag_set metas "flip_horizontal") (flag_set metas "flip_vertical") data).
Proof.
  intros Hs Hc Hr. unfold transform_by_metas.
  rewrite (step_scale_absent _ _ Hs), bind_Ok.
  rewrite (step_crop_absent _ _ Hc), bind_Ok.
  rewrite (step_rotate_absent _ _ Hr), bind_Ok.
  unfold step_flip_horizontal, step_flip_vertical, apply_flips, flag_set.
  destruct (metas !! "flip_horizontal") as [h|];
    destruct (metas !! "flip_vertical") as [v|];
    try destruct (truthy h); try destruct (truthy v); reflexivity.
Qed.

(** X8. Metadata without ['scale_factor'], ['crop_bbox'] and ['rotate_k']
    makes [transform_by_metas] an involution, whatever the two flip flags
    hold (set, unset, falsy, one or both): the transform returns, and
    applied to its own result it gives the tensor back. *)
Theorem flip_metas_involutive (data : tensor) (metas : meta_dict) :
  metas !! "scale_factor" = None -> metas !! "crop_bbox" = None ->
  metas !! "rotate_k" = None ->
  exists once,
    transform_by_metas data metas = Ok once /\
    transform_by_metas once metas = Ok data.
Proof.
  intros Hs Hc Hr. eexists. split; [by apply transform_flips_only|].
  rewrite transform_flips_only by done. f_equal. apply apply_flips_twice.
Qed.

(** ** The crop step *)

Lemma slice_len_inside a b len :
  0 <= a <= b -> b <= Z.of_nat len ->
  slice_len a b len = Z.to_nat (b - a).
Proof.
  intros Ha Hb. unfold slice_len. rewrite slice_bounds_inside by lia. lia.
Qed.

(** X9. When the crop step returns on a ['crop_bbox'] of integer
    coordinates, the batch size and the number of channels are those of
    its input, the height and the width are not larger, and a well-formed
    tensor stays well-formed.  For coordinates [0 <= y1 <= y2] with
    [y2 // 8] inside the tensor the height is [y2 // 8 - y1 // 8], and
    likewise for the width: the box is read on a grid 8 times coarser. *)
Theorem crop_step_shape (data : tensor) (metas : meta_dict)
    (y1 y2 x1 x2 : Z) data' :
  metas !! "crop_bbox"
    = Some (MSeq [inject_Z y1; inject_Z y2; inject_Z x1; inject_Z x2]) ->
  step_crop data metas = Ok data' ->
  (tN data' = tN data /\ tC data' = tC data /\
   (tH data' <= tH data)%nat /\ (tW data' <= tW data)%nat) /\
  (well_formed data -> well_formed data') /\
  (0 <= y1 <= y2 -> y2 ÷ 8 <= Z.of_nat (tH data) ->
   Z.of_nat (tH data') = y2 ÷ 8 - y1 ÷ 8) /\
  (0 <= x1 <= x2 -> x2 ÷ 8 <= Z.of_nat (tW data) ->
   Z.of_nat (tW data') = x2 ÷ 8 - x1 ÷ 8).
Proof.
  intros Hb H. unfold step_crop in H. rewrite Hb in H.
  apply bind_Ok_inv in H as (sf & _ & H).
  apply bind_Ok_inv in H as ([[[w h] a] b] & _ & H).
  apply bind_Ok_inv in H as (? & _ & H).
  apply bind_Ok_inv in H as (d & Hc & H).
  apply bind_Ok_inv in H as (os & _ & H).
  apply bind_Ok_inv in H as ([[H0 W0] C0] & _ & H).
  injection H as <-. unfold proportional_crop in Hc. cbn [unpack4] in Hc.
  rewrite bind_Ok, !rescale_eighth in Hc. injection Hc as <-.
  unfold index_hw. cbn [tN tC tH tW]. split; [|split; [|split]].
  - repeat split; apply slice_len_le.
  - apply well_formed_index_hw.
  - intros Hy Hh.
    pose proof (Z.quot_le_mono y1 y2 8 ltac:(lia) ltac:(lia)).
    pose proof (Z.quot_pos y1 8 ltac:(lia) ltac:(lia)).
    rewrite slice_len_inside by lia. lia.
  - intros Hx Hw.
    pose proof (Z.quot_le_mono x1 x2 8 ltac:(lia) ltac:(lia)).
    pose proof (Z.quot_pos x1 8 ltac:(lia) ltac:(lia)).
    rewrite slice_len_inside by lia. lia.
Qed.

(** X10. The crop step needs more than ['crop_bbox']: without
    ['scale_factor'], [transform_by_metas] raises [KeyError]; with equal
    scale factors and a box of four numbers but without ['ori_shape'], the
    crop step raises [KeyError] after the crop, although the values it
    unpacks from ['ori_shape'] are not used. *)
Theorem crop_step_required_keys (data : tensor) (metas : meta_dict) bbox :
  metas !! "crop_bbox" = Some bbox ->
  (metas !! "scale_factor" = None ->
   transform_by_metas data metas = Raise (KeyError "scale_factor")) /\
  (forall w h a b y1 y2 x1 x2,
     metas !! "scale_factor" = Some (MSeq [w; h; a; b]) ->
     (w == h)%Q ->
     bbox = MSeq [y1; y2; x1; x2] ->
     metas !! "ori_shape" = None ->
     step_crop data metas = Raise (KeyError "ori_shape")).
Proof.
  intros Hb. split.
  - intros Hs. unfold transform_by_metas.
    rewrite (step_scale_absent _ _ Hs), bind_Ok.
    by rewrite (step_crop_needs_scale_factor _ _ _ Hb Hs).
  - intros w h a b y1 y2 x1 x2 Hs Heq -> Ho. unfold step_crop. rewrite Hb.
    rewrite (getitem_Some _ _ _ Hs), bind_Ok. cbn [unpack4]. rewrite bind_Ok.
    assert (Qeq_bool w h = true) as -> by (by apply Qeq_bool_iff).
    cbn [py_assert]. rewrite bind_Ok. unfold proportional_crop.
    cbn [unpack4]. rewrite !bind_Ok.
    by rewrite (getitem_None _ _ Ho).
Qed.

(** ** The crops of the sliding window *)

(** X11. For positive crop sizes and a grid cell at a non-negative
    offset, the window [slide_inference] computes lies inside the image, and
    the crop handed to the network has height [min(h_crop, h_img)] and width
    [min(w_crop, w_img)]: windows at the border are shifted back, not
    shortened. *)
Theorem slide_crop_shape (img : tensor) h_crop w_crop h_stride w_stride
    h_idx w_idx y1 y2 x1 x2 :
  0 < h_crop -> 0 < w_crop ->
  0 <= h_idx * h_stride -> 0 <= w_idx * w_stride ->
  window (Z.of_nat (tH img)) (Z.of_nat (tW img)) h_crop w_crop
         h_stride w_stride (h_idx, w_idx) = (y1, y2, x1, x2) ->
  (0 <= y1 <= y2 /\ y2 <= Z.of_nat (tH img) /\
   0 <= x1 <= x2 /\ x2 <= Z.of_nat (tW img)) /\
  Z.of_nat (tH (index_hw img y1 y2 x1 x2))
    = Z.min h_crop (Z.of_nat (tH img)) /\
  Z.of_nat (tW (index_hw img y1 y2 x1 x2))
    = Z.min w_crop (Z.of_nat (tW img)).
Proof.
  intros Hhc Hwc Hh Hw. unfold window. intros [= <- <- <- <-].
  split; [lia|]. unfold index_hw. cbn [tH tW].
  rewrite !slice_len_inside by lia. lia.
Qed.

(** ** The shape of the result of [slide_inference] *)

Lemma iadd_shape a b r :
  iadd a b = Ok r ->
  tN r = tN a /\ tC r = tC a /\ tH r = tH a /\ tW r = tW a.
Proof.
  unfold iadd. destruct (_ && _); [|discriminate]. by intros [= <-].
Qed.

Section SlideShape.
Context {value : Type} (self : model value).

Lemma slide_loop_preds_shape img img_meta wins :
  forall preds count_mat preds' count_mat',
    foldM (slide_cell self img img_meta) (preds, count_mat) wins
      = Ok (preds', count_mat') ->
    tN preds' = tN preds /\ tC preds' = tC preds /\
    tH preds' = tH preds /\ tW preds' = tW preds.
Proof.
  induction wins as [|[[[y1 y2] x1] x2] wins IH];
    intros preds count_mat preds' count_mat' Hrun.
  - by injection Hrun as <- _.
  - cbn [foldM] in Hrun.
    apply bind_Ok_inv in Hrun as ([preds1 count1] & Hcell & Hrest).
    unfold slide_cell in Hcell.
    apply bind_Ok_inv in Hcell as ([logit st] & _ & Hcell).
    apply bind_Ok_inv in Hcell as (preds2 & Hadd & Hcell).
    injection Hcell as -> <-.
    apply iadd_shape in Hadd as (EN & EC & EH & EW).
    apply IH in Hrest as (-> & -> & -> & ->). done.
Qed.

(** X12. Without rescaling, the logits [slide_inference] returns have the
    batch size, height and width of the image and [num_classes]
    channels. *)
Theorem slide_inference_shape img img_meta preds :
  slide_inference self img img_meta false = Ok preds ->
  tN preds = tN img /\ tC preds = num_classes self /\
  tH preds = tH img /\ tW preds = tW img.
Proof.
  unfold slide_inference. intros H.
  apply bind_Ok_inv in H as ([preds0 count_mat] & Hloop & H).
  apply bind_Ok_inv in H as (? & _ & H).
  apply bind_Ok_inv in H as (preds1 & Hdiv & H).
  injection H as <-.
  unfold slide_loop in Hloop.
  destruct (stride (test_cfg self)) as [h_stride w_stride].
  destruct (crop_size (test_cfg self)) as [h_crop w_crop].
  apply bind_Ok_inv in Hloop as (h_grids & _ & Hloop).
  apply bind_Ok_inv in Hloop as (w_grids & _ & Hloop).
  pose proof (slide_loop_count _ _ _ _ _ _ _ _ Hloop) as Hcount.
  apply slide_loop_preds_shape in Hloop as (EN & EC & EH & EW).
  cbn [new_zeros build tN tC tH tW] in EN, EC, EH, EW.
  destruct (count_windows_shape
              (map (window (Z.of_nat (tH img)) (Z.of_nat (tW img)) h_crop w_crop
                      h_stride w_stride) (cells h_grids w_grids))
              (new_zeros (tN img) 1 (tH img) (tW img)))
    as (CN & CC & CH & CW).
  rewrite <- Hcount in CN, CC, CH, CW.
  cbn [new_zeros build tN tC tH tW] in CN, CC, CH, CW.
  unfold truediv in Hdiv. rewrite EN, EC, EH, EW, CN, CC, CH, CW in Hdiv.
  unfold bdim in Hdiv. rewrite !Nat.eqb_refl in Hdiv.
  destruct (num_classes self =? 1)%nat eqn:Hc;
    injection Hdiv as <-; done.
Qed.

End SlideShape.

(** ** One crop that holds the whole image *)

Lemma py_slice_full {A} (l : list A) :
  py_slice 0 (Z.of_nat (length l)) l = l.
Proof.
  unfold py_slice. rewrite slice_bounds_inside by lia.
  rewrite Nat2Z.id. cbn [Z.to_nat drop]. rewrite Nat.sub_0_r.
  apply firstn_all.
Qed.

Lemma index_hw_full t :
  well_formed t ->
  index_hw t 0 (Z.of_nat (tH t)) 0 (Z.of_nat (tW t)) = t.
Proof.
  intros Hwf.
  pose proof (map_planes_fixed
                (fun p => map (py_slice 0 (Z.of_nat (tW t)))
                            (py_slice 0 (Z.of_nat (tH t)) p)) t Hwf) as Hfix.
  destruct t as [n c h w d]. unfold index_hw, map_planes.
  cbn [tN tC tH tW data] in *.
  rewrite !slice_len_inside by lia. rewrite !Z.sub_0_r, !Nat2Z.id.
  f_equal. apply Hfix. intros p [Hp Hrows].
  rewrite <- Hp, py_slice_full.
  rewrite <- (map_id p) at 2. apply map_ext_in. intros row Hrow.
  rewrite List.Forall_forall in Hrows. rewrite <- (Hrows row Hrow).
  apply py_slice_full.
Qed.

Lemma grids_single img_dim crop_dim stride_dim :
  0 < stride_dim -> img_dim <= crop_dim ->
  grids img_dim crop_dim stride_dim = Ok 1.
Proof.
  intros Hs Hle. unfold grids.
  destruct (Z.eqb_spec stride_dim 0) as [?|_]; [lia|]. f_equal.
  rewrite Z.div_small; lia.
Qed.

Lemma bidx_inside size i : (i < size)%nat -> bidx size i = i.
Proof.
  intros Hi. unfold bidx. destruct (Nat.eqb_spec size 1); lia.
Qed.

Lemma bget_inside t n c i j :
  in_bounds t n c i j -> bget t n c i j = get t n c i j.
Proof.
  intros (Hn & Hc & Hi & Hj). unfold bget. by rewrite !bidx_inside.
Qed.

Lemma get_pad_none t n c i j :
  in_bounds t n c i j -> get (pad t 0 0 0 0) n c i j = get t n c i j.
Proof.
  intros (Hn & Hc & Hi & Hj). unfold pad.
  change (Z.to_nat 0) with 0%nat. cbn zeta.
  rewrite get_build by lia. cbn [Nat.leb Nat.add andb].
  rewrite !Nat.sub_0_r.
  destruct (Nat.ltb_spec i (tH t)); [|lia].
  destruct (Nat.ltb_spec j (tW t)); [|lia]. reflexivity.
Qed.

Lemma pad_none_shape t :
  tN (pad t 0 0 0 0) = tN t /\ tC (pad t 0 0 0 0) = tC t /\
  tH (pad t 0 0 0 0) = tH t /\ tW (pad t 0 0 0 0) = tW t.
Proof.
  unfold pad. change (Z.to_nat 0) with 0%nat. cbn [build tN tC tH tW Nat.add].
  by rewrite !Nat.add_0_r.
Qed.

Lemma bdim_refl x : bdim x x = Some x.
Proof. unfold bdim. by rewrite Nat.eqb_refl. Qed.

Lemma bdim_one x : bdim x 1 = Some x.
Proof. unfold bdim. by destruct (Nat.eqb_spec x 1). Qed.

Lemma fits_refl x : fits x x = true.
Proof. unfold fits. by rewrite Nat.eqb_refl. Qed.

(** The count buffer after the one crop that holds the whole image. *)
Lemma whole_crop_counted n h w :
  let count_mat :=
    add_one_at (new_zeros n 1 h w) 0 (Z.of_nat h) 0 (Z.of_nat w) in
  no_zero_entry count_mat = true /\
  forall b i j, (b < n)%nat -> (i < h)%nat -> (j < w)%nat ->
    (get count_mat b 0 i j == 1)%Q.
Proof.
  intros count_mat.
  assert (forall b i j, (b < n)%nat -> (i < h)%nat -> (j < w)%nat ->
            (get count_mat b 0 i j == 1)%Q) as Hone.
  { intros b i j Hb Hi Hj. unfold count_mat.
    rewrite get_add_one_at by (unfold in_bounds; cbn; lia).
    cbn [new_zeros build tH tW]. unfold covers.
    rewrite !slice_bounds_inside by lia. rewrite !Nat2Z.id.
    change (Z.to_nat 0) with 0%nat. cbn [Nat.leb andb].
    destruct (Nat.ltb_spec i h); [|lia]. destruct (Nat.ltb_spec j w); [|lia].
    cbn [andb]. rewrite Qred_correct. unfold new_zeros. rewrite get_build by lia.
    reflexivity. }
  split; [|exact Hone]. unfold no_zero_entry.
  apply all_entries_is_build; [apply add_one_at_is_build|].
  intros b ch i j (Hb & Hch & Hi & Hj).
  destruct (add_one_at_shape (new_zeros n 1 h w) 0 (Z.of_nat h) 0 (Z.of_nat w))
    as (SN & SC & SH & SW).
  fold count_mat in SN, SC, SH, SW, Hb, Hch, Hi, Hj |- *.
  rewrite SN in Hb. rewrite SC in Hch. rewrite SH in Hi. rewrite SW in Hj.
  cbn in Hb, Hch, Hi, Hj. assert (ch = 0%nat) as -> by lia.
  apply negb_true_iff. destruct (Qeq_bool _ 0) eqn:Hz; [|done].
  apply Qeq_bool_iff in Hz. rewrite (Hone b i j) in Hz by done.
  discriminate Hz.
Qed.

Section SingleCrop.
Context {value : Type} (self : model value).

(** X13. When the crop is at least as large as the image, sliding-window
    inference is whole-image inference: if [whole_inference] returns logits
    of the image's size with [num_classes] channels, then [slide_inference]
    returns too, with the same shape and, entry by entry, the same
    values (no rescaling on either side). *)
Theorem slide_single_crop_is_whole img img_meta logit st hs ws hc wc :
  well_formed img ->
  stride (test_cfg self) = (hs, ws) -> crop_size (test_cfg self) = (hc, wc) ->
  0 < hs -> 0 < ws ->
  Z.of_nat (tH img) <= hc -> Z.of_nat (tW img) <= wc ->
  whole_inference self img img_meta false = Ok (logit, st) ->
  tN logit = tN img -> tC logit = num_classes self ->
  tH logit = tH img -> tW logit = tW img ->
  exists preds,
    slide_inference self img img_meta false = Ok preds /\
    (tN preds = tN logit /\ tC preds = tC logit /\
     tH preds = tH logit /\ tW preds = tW logit) /\
    forall n c i j, in_bounds logit n c i j ->
      (get preds n c i j == get logit n c i j)%Q.
Proof.
  intros Hwf Hstride Hcrop Hhs Hws Hh Hw Hwhole EN EC EH EW.
  unfold whole_inference in Hwhole.
  apply bind_Ok_inv in Hwhole as ([l s] & Henc & Hwhole).
  injection Hwhole as -> ->.
  unfold slide_inference, slide_loop. rewrite Hstride, Hcrop.
  rewrite !grids_single by lia. rewrite !bind_Ok.
  change (cells 1 1) with [(0, 0)]. cbn [map].
  assert (window (Z.of_nat (tH img)) (Z.of_nat (tW img)) hc wc hs ws (0, 0)
          = (0, Z.of_nat (tH img), 0, Z.of_nat (tW img))) as ->.
  { unfold window. repeat f_equal; lia. }
  cbn [foldM]. unfold slide_cell. rewrite index_hw_full by done.
  rewrite Henc, bind_Ok.
  cbn [new_zeros build tH tW]. rewrite !Z.sub_diag.
  fold (new_zeros (tN img) (num_classes self) (tH img) (tW img)).
  fold (new_zeros (tN img) 1 (tH img) (tW img)).
  destruct (pad_none_shape logit) as (PN & PC & PH & PW).
  destruct (whole_crop_counted (tN img) (tH img) (tW img)) as [Hnz Hone].
  set (count_mat := add_one_at _ _ _ _ _) in *.
  destruct (add_one_at_shape (new_zeros (tN img) 1 (tH img) (tW img)) 0
              (Z.of_nat (tH img)) 0 (Z.of_nat (tW img)))
    as (SN & SC & SH & SW).
  fold count_mat in SN, SC, SH, SW.
  cbn [new_zeros build tN tC tH tW] in SN, SC, SH, SW.
  unfold iadd. cbn [new_zeros build tN tC tH tW].
  rewrite PN, PC, PH, PW, EN, EC, EH, EW, !fits_refl. cbn [andb].
  rewrite !bind_Ok. rewrite Hnz. cbn [py_assert]. rewrite bind_Ok.
  unfold truediv. cbn [build tN tC tH tW]. rewrite SN, SC, SH, SW.
  rewrite !bdim_refl, bdim_one. rewrite bind_Ok. eexists. split; [reflexivity|].
  cbn [build tN tC tH tW]. split; [by repeat split|].
  intros n c i j (Hn & Hc & Hi & Hj).
  rewrite EN in Hn. rewrite EC in Hc. rewrite EH in Hi. rewrite EW in Hj.
  rewrite get_build by done. rewrite Qred_correct.
  rewrite bget_inside by (unfold in_bounds; cbn; lia).
  rewrite get_build by done. rewrite Qred_correct.
  unfold new_zeros. rewrite get_build by done.
  rewrite bget_inside by (unfold in_bounds; rewrite PN, PC, PH, PW; lia).
  rewrite get_pad_none by (unfold in_bounds; lia).
  unfold bget. rewrite SN, SC, SH, SW.
  rewrite (bidx_inside (tN img)), (bidx_inside (tH img)),
    (bidx_inside (tW img)) by done.
  change (bidx 1 c) with 0%nat. rewrite Hone by done.
  field.
Qed.
End SingleCrop.

(** ** Gaps in the grid *)

Lemma count_windows_uncovered wins : forall t b ch i j,
  in_bounds t b ch i j ->
  (forall win, In win wins -> covers (tH t) (tW t) win i j = false) ->
  get (count_windows t wins) b ch i j = get t b ch i j.
Proof.
  induction wins as [|[[[y1 y2] x1] x2] wins IH]; intros t b ch i j Hin Hno;
    [reflexivity|].
  rewrite count_windows_cons.
  destruct (add_one_at_shape t y1 y2 x1 x2) as (EN & EC & EH & EW).
  rewrite IH.
  - rewrite get_add_one_at by exact Hin.
    by rewrite (Hno (y1, y2, x1, x2)) by (left; reflexivity).
  - unfold in_bounds. by rewrite EN, EC, EH, EW.
  - intros win Hwin. rewrite EH, EW. apply Hno. by right.
Qed.

Lemma all_entries_build_inv P n c h w f b ch i j :
  all_entries P (build n c h w f) = true ->
  (b < n)%nat -> (ch < c)%nat -> (i < h)%nat -> (j < w)%nat ->
  P (f b ch i j) = true.
Proof.
  unfold all_entries, build, tabulate. cbn [data].
  intros Hall Hb Hch Hi Hj.
  rewrite forallb_forall in Hall.
  specialize (Hall _ (in_map _ _ b (proj2 (in_seq n 0%nat b) ltac:(lia)))).
  rewrite forallb_forall in Hall.
  specialize (Hall _ (in_map _ _ ch (proj2 (in_seq c 0%nat ch) ltac:(lia)))).
  rewrite forallb_forall in Hall.
  specialize (Hall _ (in_map _ _ i (proj2 (in_seq h 0%nat i) ltac:(lia)))).
  rewrite forallb_forall in Hall.
  exact (Hall _ (in_map _ _ j (proj2 (in_seq w 0%nat j) ltac:(lia)))).
Qed.

Lemma all_entries_is_build_inv P t b ch i j :
  is_build t -> all_entries P t = true -> in_bounds t b ch i j ->
  P (get t b ch i j) = true.
Proof.
  intros [f Hf] Hall (Hb & Hch & Hi & Hj).
  rewrite Hf in Hall |- *. cbn [tN tC tH tW] in *.
  rewrite get_build by assumption.
  by eapply all_entries_build_inv.
Qed.

Lemma cells_inv kh kw gh gw :
  In (kh, kw) (cells gh gw) -> 0 <= kh < gh /\ 0 <= kw < gw.
Proof.
  intros H. apply list_elem_of_In in H. unfold cells in H.
  apply list_elem_of_bind in H as (h & H & Hh).
  apply list_elem_of_bind in H as (w & H & Hw).
  apply list_elem_of_singleton in H. injection H as -> ->.
  apply list_elem_of_In, elem_of_range in Hh.
  apply list_elem_of_In, elem_of_range in Hw. done.
Qed.

(** Along one axis: with a stride larger than the crop, position [crop]
    of an axis longer than two crops lies in no crop of the grid. *)
Lemma axis_gap (len crop stride k : Z) :
  0 <= crop < stride -> 2 * crop < len -> 0 <= k ->
  ~ (Z.max (Z.min (k * stride + crop) len - crop) 0 <= crop
       < Z.min (k * stride + crop) len).
Proof.
  intros Hs Hlen Hk.
  destruct (Z.eq_dec k 0) as [->|Hpos]; [lia|].
  assert (stride <= k * stride) by nia. lia.
Qed.

Lemma window_gap_rows (h w : nat) hc wc hs ws cell j :
  0 <= hc < hs -> 2 * hc < Z.of_nat h -> 0 <= fst cell ->
  covers h w (window (Z.of_nat h) (Z.of_nat w) hc wc hs ws cell)
    (Z.to_nat hc) j = false.
Proof.
  intros Hs Hlen Hk. destruct cell as [kh kw]. cbn [fst] in Hk.
  unfold covers, window.
  assert (0 <= kh * hs) by nia.
  rewrite (slice_bounds_inside _ _ h) by lia.
  destruct (slice_bounds _ _ w) as [xlo xhi].
  pose proof (axis_gap (Z.of_nat h) hc hs kh Hs Hlen Hk) as Hgap.
  destruct (Nat.leb_spec (Z.to_nat (Z.max (Z.min (kh * hs + hc) (Z.of_nat h) - hc) 0))
              (Z.to_nat hc)) as [Hlo|]; [|reflexivity].
  destruct (Nat.ltb_spec (Z.to_nat hc)
              (Z.to_nat (Z.min (kh * hs + hc) (Z.of_nat h)))) as [Hhi|];
    [|reflexivity].
  exfalso. apply Hgap. lia.
Qed.

Lemma window_gap_columns (h w : nat) hc wc hs ws cell i :
  0 <= wc < ws -> 2 * wc < Z.of_nat w -> 0 <= snd cell ->
  covers h w (window (Z.of_nat h) (Z.of_nat w) hc wc hs ws cell)
    i (Z.to_nat wc) = false.
Proof.
  intros Hs Hlen Hk. destruct cell as [kh kw]. cbn [snd] in Hk.
  unfold covers, window.
  assert (0 <= kw * ws) by nia.
  rewrite (slice_bounds_inside _ _ w) by lia.
  destruct (slice_bounds _ _ h) as [ylo yhi].
  pose proof (axis_gap (Z.of_nat w) wc ws kw Hs Hlen Hk) as Hgap.
  destruct (Nat.leb_spec (Z.to_nat (Z.max (Z.min (kw * ws + wc) (Z.of_nat w) - wc) 0))
              (Z.to_nat wc)) as [Hlo|]; [|by rewrite andb_false_r].
  destruct (Nat.ltb_spec (Z.to_nat wc)
              (Z.to_nat (Z.min (kw * ws + wc) (Z.of_nat w)))) as [Hhi|];
    [|by rewrite !andb_false_r].
  exfalso. apply Hgap. lia.
Qed.

Section Gap.
Context {value : Type} (self : model value).

(** X14. With a stride larger than the crop along an axis that is longer
    than two crops, the grid leaves pixels in no crop: once the loops of
    [slide_inference] have run on a non-empty image, the coverage assertion
    fails and [slide_inference] raises [AssertionError]. *)
Theorem slide_gap_fails_assertion img img_meta rescale preds count_mat
    hs ws hc wc :
  stride (test_cfg self) = (hs, ws) ->
  crop_size (test_cfg self) = (hc, wc) ->
  (0 < tN img)%nat -> (0 < tH img)%nat -> (0 < tW img)%nat ->
  (0 <= hc < hs /\ 2 * hc < Z.of_nat (tH img)) \/
  (0 <= wc < ws /\ 2 * wc < Z.of_nat (tW img)) ->
  slide_loop self img img_meta = Ok (preds, count_mat) ->
  slide_inference self img img_meta rescale = Raise AssertionError.
Proof.
  intros Hstride Hcrop HN HH HW Hgap Hloop.
  unfold slide_inference. rewrite Hloop, bind_Ok.
  assert (no_zero_entry count_mat = false) as ->; [|reflexivity].
  unfold slide_loop in Hloop. rewrite Hstride, Hcrop in Hloop.
  apply bind_Ok_inv in Hloop as (gh & _ & Hloop).
  apply bind_Ok_inv in Hloop as (gw & _ & Hloop).
  apply slide_loop_count in Hloop. subst count_mat.
  set (wins := map _ _).
  set (zeros := new_zeros (tN img) 1 (tH img) (tW img)).
  assert (is_build zeros) as Hbuild
    by (unfold is_build, zeros, new_zeros; cbn; eauto).
  assert (exists i j, (i < tH img)%nat /\ (j < tW img)%nat /\
            forall win, In win wins ->
              covers (tH img) (tW img) win i j = false) as (i & j & Hi & Hj & Hno).
  { destruct Hgap as [[Hs Hlen]|[Hs Hlen]].
    - exists (Z.to_nat hc), 0%nat. split; [lia|]. split; [lia|].
      intros win [[kh kw] [<- Hcell]]%in_map_iff.
      apply cells_inv in Hcell as [Hkh _].
      apply window_gap_rows; [exact Hs | exact Hlen | cbn; lia].
    - exists 0%nat, (Z.to_nat wc). split; [lia|]. split; [lia|].
      intros win [[kh kw] [<- Hcell]]%in_map_iff.
      apply cells_inv in Hcell as [_ Hkw].
      apply window_gap_columns; [exact Hs | exact Hlen | cbn; lia]. }
  destruct (no_zero_entry (count_windows zeros wins)) eqn:Hz; [|reflexivity].
  exfalso. unfold no_zero_entry in Hz.
  destruct (count_windows_shape wins zeros) as (EN & EC & EH & EW).
  assert (in_bounds zeros 0 0 i j) as Hin
    by (unfold in_bounds, zeros; cbn; lia).
  apply (all_entries_is_build_inv _ _ 0%nat 0%nat i j) in Hz.
  - rewrite (count_windows_uncovered wins zeros 0%nat 0%nat i j Hin Hno) in Hz.
    unfold zeros, new_zeros in Hz. rewrite get_build in Hz by lia.
    discriminate Hz.
  - by apply count_windows_is_build.
  - unfold in_bounds. by rewrite EN, EC, EH, EW.
Qed.

End Gap.

(** ** What [inference] checks before it runs a network *)

Lemma seq_eqb_refl l : seq_eqb l l = true.
Proof.
  induction l as [|x l IH]; [reflexivity|]. cbn [seq_eqb].
  rewrite IH, andb_true_r. apply Qeq_bool_iff. reflexivity.
Qed.

Lemma py_eq_refl v : py_eq v v = true.
Proof.
  destruct v; cbn; try (apply Qeq_bool_iff; reflexivity).
  - by apply bool_decide_eq_true_2.
  - apply seq_eqb_refl.
Qed.

Section EntryChecks.
Context {value : Type} (self : model value).

Lemma mode_check_passes :
  valid_mode self ->
  py_assert (bool_decide (mode (test_cfg self) = "slide")
             || bool_decide (mode (test_cfg self) = "whole")) = Ok tt.
Proof.
  intros [H|H]; rewrite H; reflexivity.
Qed.

Lemma mode_check_fails :
  ~ valid_mode self ->
  py_assert (bool_decide (mode (test_cfg self) = "slide")
             || bool_decide (mode (test_cfg self) = "whole"))
    = Raise AssertionError.
Proof.
  intros Hn. unfold valid_mode in Hn.
  rewrite !bool_decide_eq_false_2 by tauto. reflexivity.
Qed.

Lemma all_ori_shape_mismatch a b (pre post : list meta_dict) (m : meta_dict) :
  Forall (fun x => exists v, x !! "ori_shape" = Some v /\ py_eq v a = true) pre ->
  m !! "ori_shape" = Some b -> py_eq b a = false ->
  all_ori_shape a (pre ++ m :: post) = Ok false.
Proof.
  intros Hpre Hm Hne. induction Hpre as [|x pre (v & Hv & Heq) _ IH].
  - cbn [app all_ori_shape]. rewrite (getitem_Some _ _ _ Hm), bind_Ok.
    by rewrite Hne.
  - cbn [app all_ori_shape]. rewrite (getitem_Some _ _ _ Hv), bind_Ok.
    by rewrite Heq.
Qed.

(** X15. What [inference] checks before any network runs.  A test mode
    other than ['slide'] and ['whole'] raises [AssertionError].  With a
    valid mode: an empty metadata list (or an empty container) raises
    [IndexError]; a first dictionary without ['ori_shape'] raises
    [KeyError]; and a later dictionary whose ['ori_shape'] differs from the
    first one's raises [AssertionError]. *)
Theorem inference_entry_checks img img_meta rescale :
  (~ valid_mode self ->
   inference self img img_meta rescale = Raise AssertionError) /\
  (valid_mode self ->
   (unwrapped img_meta = None \/ unwrapped img_meta = Some [] ->
    inference self img img_meta rescale = Raise IndexError) /\
   (forall m0 rest, unwrapped img_meta = Some (m0 :: rest) ->
      (m0 !! "ori_shape" = None ->
       inference self img img_meta rescale = Raise (KeyError "ori_shape")) /\
      (forall a b pre m post,
         m0 !! "ori_shape" = Some a -> rest = pre ++ m :: post ->
         Forall (fun x => exists v, x !! "ori_shape" = Some v /\
                                    py_eq v a = true) pre ->
         m !! "ori_shape" = Some b -> py_eq b a = false ->
         inference self img img_meta rescale = Raise AssertionError))).
Proof.
  split.
  - intros Hmode. unfold inference, run_strategy.
    by rewrite (mode_check_fails Hmode).
  - intros Hmode. split.
    + intros Hempty. unfold inference, run_strategy.
      rewrite (mode_check_passes Hmode), bind_Ok.
      destruct img_meta as [l|[|l data]]; cbn in Hempty;
        destruct Hempty as [H|H]; try discriminate H; try reflexivity.
      * by injection H as ->.
      * by injection H as ->.
    + intros m0 rest Hmeta.
      assert (forall B (k : list meta_dict -> result B),
        (match img_meta with
         | MetaContainer data => first data
         | MetaList l => Ok l
         end ≫= k) = k (m0 :: rest)) as Hun.
      { intros B k. destruct img_meta as [l|[|l data]]; cbn in Hmeta;
          try discriminate Hmeta; by injection Hmeta as ->. }
      split.
      * intros Hnone. unfold inference, run_strategy.
        rewrite (mode_check_passes Hmode), bind_Ok, Hun.
        cbn [first]. rewrite bind_Ok.
        by rewrite (getitem_None _ _ Hnone).
      * intros a b pre m post Ha -> Hpre Hm Hne.
        unfold inference, run_strategy.
        rewrite (mode_check_passes Hmode), bind_Ok, Hun.
        cbn [first]. rewrite bind_Ok.
        rewrite (getitem_Some _ _ _ Ha), bind_Ok.
        cbn [all_ori_shape]. rewrite (getitem_Some _ _ _ Ha), bind_Ok.
        rewrite py_eq_refl.
        by rewrite (all_ori_shape_mismatch a b pre post m Hpre Hm Hne).
Qed.

End EntryChecks.

Section WholeStates.
Context {value : Type} (self : model value).

Lemma mapM_length {A B} (f : A -> result B) (l : list A) ys :
  mapM f l = Ok ys -> length ys = length l.
Proof.
  revert ys. induction l as [|x l IH]; intros ys H.
  - by injection H as <-.
  - cbn [mapM] in H.
    apply bind_Ok_inv in H as (y & _ & H).
    apply bind_Ok_inv in H as (ys' & Hys & H).
    injection H as <-. cbn. f_equal. by apply IH.
Qed.

Lemma mapM_lookup {A B} (f : A -> result B) (l : list A) ys i x :
  mapM f l = Ok ys -> l !! i = Some x ->
  exists y, ys !! i = Some y /\ f x = Ok y.
Proof.
  revert ys i. induction l as [|a l IH]; intros ys i H Hi; [done|].
  cbn [mapM] in H.
  apply bind_Ok_inv in H as (y & Hy & H).
  apply bind_Ok_inv in H as (ys' & Hys & H).
  injection H as <-. destruct i as [|i].
  - injection Hi as ->. eauto.
  - cbn in Hi. cbn. eauto.
Qed.

Lemma run_strategy_whole img img_meta rescale m0 seg_logit states :
  mode (test_cfg self) = "whole" ->
  run_strategy self img img_meta rescale = Ok (m0, seg_logit, states) ->
  exists metas,
    unwrapped img_meta = Some metas /\ head metas = Some m0 /\
    whole_inference self img metas rescale = Ok (seg_logit, states).
Proof.
  intros Hmode. unfold run_strategy. rewrite Hmode. intros H.
  apply bind_Ok_inv in H as (? & _ & H).
  apply bind_Ok_inv in H as (metas & Hmetas & H).
  apply bind_Ok_inv in H as (m & Hm & H).
  apply bind_Ok_inv in H as (ori & _ & H).
  apply bind_Ok_inv in H as (same & _ & H).
  apply bind_Ok_inv in H as (? & _ & H).
  rewrite bool_decide_eq_false_2 in H by discriminate.
  apply bind_Ok_inv in H as ([logit st] & Hwhole & H).
  injection H as -> -> ->.
  exists metas. split; [|split; [|assumption]].
  - destruct img_meta as [l|[|l data]]; cbn in Hmetas |- *;
      try discriminate Hmetas; by injection Hmetas as ->.
  - destruct metas; [discriminate Hm|]. by injection Hm as ->.
Qed.

Lemma whole_inference_states img metas rescale seg_logit states :
  whole_inference self img metas rescale = Ok (seg_logit, states) ->
  exists logits, encode_decode self img metas = Ok (logits, states) /\
                 (rescale = false -> seg_logit = logits).
Proof.
  unfold whole_inference. intros H.
  apply bind_Ok_inv in H as ([logits st] & Henc & H).
  exists logits. destruct rescale.
  - apply bind_Ok_inv in H as (size & _ & H).
    apply bind_Ok_inv in H as (out & _ & H).
    injection H as -> ->. split; [assumption | discriminate].
  - injection H as -> ->. split; [assumption | reflexivity].
Qed.

Lemma encode_decode_states img metas logits states :
  encode_decode self img metas = Ok (logits, states) ->
  exists x, extract_feat self img = Ok x /\
            states = <["seg_logits" := SegLogits logits]> {["feats" := Feats x]}.
Proof.
  unfold encode_decode. intros H.
  apply bind_Ok_inv in H as (x & Hx & H).
  apply bind_Ok_inv in H as (out & _ & H).
  apply bind_Ok_inv in H as (out' & _ & H).
  injection H as -> <-. eauto.
Qed.

(** X16. In ['whole'] mode the states [inference] returns are those of
    [encode_decode] on the image: ['feats'] holds the extracted features and
    ['seg_logits'] the logits at the size of the input, before rescaling to
    ['ori_shape'], before softmax and before the flip is undone; there is
    no other key. *)
Theorem whole_mode_states img img_meta rescale output states :
  mode (test_cfg self) = "whole" ->
  inference self img img_meta rescale = Ok (output, states) ->
  exists metas x logits,
    unwrapped img_meta = Some metas /\
    extract_feat self img = Ok x /\
    encode_decode self img metas = Ok (logits, states) /\
    states !! "feats" = Some (Feats x) /\
    states !! "seg_logits" = Some (SegLogits logits) /\
    dom states = ({["feats"; "seg_logits"]} : gset string).
Proof.
  intros Hmode H.
  apply inference_inv in H as (m0 & seg_logit & flip & Hrun & _ & _).
  apply (run_strategy_whole _ _ _ _ _ _ Hmode) in Hrun as (metas & Hun & _ & Hw).
  apply whole_inference_states in Hw as (logits & Henc & _).
  destruct (encode_decode_states _ _ _ _ Henc) as (x & Hx & ->).
  exists metas, x, logits.
  split; [assumption|]. split; [assumption|]. split; [assumption|].
  split; [|split].
  - rewrite lookup_insert_ne by discriminate. apply lookup_singleton_eq.
  - apply lookup_insert_eq.
  - rewrite dom_insert_L, dom_singleton_L. set_solver.
Qed.

Lemma argmax_dim1_length t preds :
  argmax_dim1 t = Ok preds -> length preds = length (data t).
Proof.
  unfold argmax_dim1. destruct (tC t =? 0)%nat; [discriminate|].
  intros H. injection H as <-. apply length_map.
Qed.

Lemma slice_states_inv states idx s :
  slice_states states idx = Ok s ->
  exists x logits,
    states !! "feats" = Some (Feats x) /\
    states !! "seg_logits" = Some (SegLogits logits) /\
    mapM (fun t => index0 t idx) x = Ok (sample_feats s) /\
    index0 logits idx = Ok (sample_seg_logits s).
Proof.
  unfold slice_states, getitem. intros H.
  destruct (states !! "feats") as [[x|?]|] eqn:Hf; try discriminate H.
  rewrite bind_Ok in H.
  apply bind_Ok_inv in H as (feats & Hfeats & H).
  destruct (states !! "seg_logits") as [[?|logits]|] eqn:Hl; try discriminate H.
  rewrite bind_Ok in H.
  apply bind_Ok_inv in H as (sl & Hsl & H).
  injection H as <-. exists x, logits. cbn. auto.
Qed.

Lemma index0_inv t idx s :
  index0 t idx = Ok s ->
  (idx < tN t)%nat /\
  s = Sample (tC t) (tH t) (tW t) (nth idx (data t) []).
Proof.
  unfold index0. destruct (idx <? tN t)%nat eqn:Hlt; [|discriminate].
  apply Nat.ltb_lt in Hlt. intros H. by injection H as <-.
Qed.

(** X17. When [simple_test] returns a pair, no ONNX export is running,
    there is one state dictionary per prediction map and one prediction
    map per sample of the output of [inference]; the dictionary of sample
    [idx] holds the slice [idx] of ['seg_logits'] and one slice per feature
    map, each of which has more than [idx] samples. *)
Theorem simple_test_state_per_sample img img_meta rescale seg_pred state_list :
  simple_test self img img_meta rescale = Ok (Tested seg_pred state_list) ->
  in_onnx_export self = false /\
  length state_list = length seg_pred /\
  exists output states,
    inference self img img_meta rescale = Ok (output, states) /\
    length seg_pred = length (data output) /\
    forall idx s, state_list !! idx = Some s ->
      exists x logits,
        states !! "feats" = Some (Feats x) /\
        states !! "seg_logits" = Some (SegLogits logits) /\
        (idx < tN logits)%nat /\
        sample_seg_logits s =
          Sample (tC logits) (tH logits) (tW logits)
                 (nth idx (data logits) []) /\
        length (sample_feats s) = length x /\
        Forall (fun t => (idx < tN t)%nat) x.
Proof.
  unfold simple_test. intros H.
  apply bind_Ok_inv in H as ([output states] & Hinf & H).
  apply bind_Ok_inv in H as (preds & Harg & H).
  destruct (in_onnx_export self); [discriminate H|].
  apply bind_Ok_inv in H as (sl & Hsl & H).
  injection H as -> ->.
  pose proof (mapM_length _ _ _ Hsl) as Hlen. rewrite length_seq in Hlen.
  split; [reflexivity|]. split; [assumption|].
  exists output, states. split; [assumption|].
  split; [by apply argmax_dim1_length|].
  intros idx s Hs.
  assert (seq 0 (length seg_pred) !! idx = Some idx) as Hidx.
  { apply lookup_lt_Some in Hs. rewrite Hlen in Hs.
    rewrite lookup_seq_lt by assumption. reflexivity. }
  destruct (mapM_lookup _ _ _ _ _ Hsl Hidx) as (s' & Hs' & Hslice).
  rewrite Hs in Hs'. injection Hs' as <-.
  apply slice_states_inv in Hslice as (x & logits & Hf & Hl & Hfeats & Hlog).
  apply index0_inv in Hlog as (Hlt & Hlog).
  exists x, logits.
  split; [assumption|]. split; [assumption|]. split; [assumption|].
  split; [assumption|]. split.
  - by apply mapM_length in Hfeats.
  - apply Forall_forall. intros t Ht.
    apply list_elem_of_lookup in Ht as (k & Hk).
    destruct (mapM_lookup _ _ _ _ _ Hfeats Hk) as (y & _ & Hy).
    by apply index0_inv in Hy as (? & _).
Qed.

End WholeStates.

(** ** Aligning the target features *)

Lemma well_formed_build n c h w f : well_formed (build n c h w f).
Proof.
  unfold well_formed, build. cbn [data tN tC tH tW].
  rewrite length_map, length_seq. split; [reflexivity|].
  rewrite List.Forall_map. apply List.Forall_forall. intros b _.
  rewrite length_map, length_seq. split; [reflexivity|].
  rewrite List.Forall_map. apply List.Forall_forall. intros ch _.
  apply plane_ok_tabulate.
Qed.

Lemma unbind0_single t :
  well_formed t -> Forall (fun d => single_sample d /\ tC d = tC t) (unbind0 t).
Proof.
  intros [_ Hwf]. unfold unbind0. rewrite List.Forall_map.
  eapply List.Forall_impl; [|exact Hwf]. intros s [Hlen Hs].
  split; [|reflexivity]. split; [|reflexivity].
  split; [reflexivity|]. cbn. by repeat constructor.
Qed.

Lemma mapM_Forall2 {A B} (f : A -> result B) l ys :
  mapM f l = Ok ys -> Forall2 (fun x y => f x = Ok y) l ys.
Proof.
  revert ys. induction l as [|x l IH]; intros ys H.
  - injection H as <-. constructor.
  - cbn [mapM] in H.
    apply bind_Ok_inv in H as (y & Hy & H).
    apply bind_Ok_inv in H as (ys' & Hys & H).
    injection H as <-. constructor; auto.
Qed.

Lemma same_shape_eq a b :
  same_shape a b = true -> tC b = tC a /\ tH b = tH a /\ tW b = tW a.
Proof.
  unfold same_shape. rewrite !andb_true_iff, !Nat.eqb_eq. lia.
Qed.

Lemma well_formed_stack c h w l :
  Forall (fun x => single_sample x /\ tC x = c /\ tH x = h /\ tW x = w) l ->
  well_formed (Tensor (length l) c h w (concat (map data l))).
Proof.
  unfold well_formed. cbn [data tN tC tH tW].
  induction 1 as [|x l [[[Hlen Hwf] Hone] (EC & EH & EW)] _ [IHlen IH]];
    [split; [reflexivity | constructor]|].
  rewrite EC, EH, EW in Hwf. rewrite Hone in Hlen.
  destruct (data x) as [|s [|? ?]] eqn:Hdata; try discriminate Hlen.
  cbn [map concat]. rewrite Hdata. cbn [app length]. split; [by rewrite IHlen|].
  apply Forall_cons in Hwf as [Hs _]. by constructor.
Qed.

Lemma stack_squeezed_shape l t :
  Forall single_sample l -> stack_squeezed l = Ok t ->
  well_formed t /\ tN t = length l /\ (0 < length l)%nat /\
  forall d, head l = Some d -> tC t = tC d.
Proof.
  intros Hl. unfold stack_squeezed. destruct l as [|d rest]; [discriminate|].
  destruct (forallb (same_shape d) rest) eqn:Hsame; [|discriminate].
  intros H. injection H as <-.
  split; [|split; [reflexivity | split; [cbn; lia | by intros ? [= <-]]]].
  apply (well_formed_stack (tC d) (tH d) (tW d) (d :: rest)).
  apply Forall_cons in Hl as [Hd Hrest]. constructor.
  - split; [exact Hd | by repeat split].
  - rewrite forallb_forall in Hsame. apply Forall_forall.
    intros x Hx. split.
    + by eapply (proj1 (Forall_forall _ _) Hrest).
    + apply same_shape_eq, Hsame. by apply list_elem_of_In.
Qed.

(** X18. When the loop aligning the target features returns, its result
    is a well-formed batch with as many samples as the shorter of the
    feature batch and the metadata list ([zip] stops at the shorter one), at
    least one, and as many channels as the last dimension of the
    channel-last input. *)
Theorem align_feats_shape t ms feats :
  align_feats (BTensor t) (BMetas ms) = Ok feats ->
  well_formed feats /\
  tN feats = Nat.min (tN t) (length ms) /\ (0 < tN feats)%nat /\
  tC feats = tW t.
Proof.
  unfold align_feats. rewrite bind_Ok. intros H.
  apply bind_Ok_inv in H as (l & Hl & Hstack).
  pose proof (mapM_length _ _ _ Hl) as Hlen.
  pose proof (mapM_Forall2 _ _ _ Hl) as Hall.
  pose proof (unbind0_single (permute_0312 t) (well_formed_build _ _ _ _ _))
    as Hsingle.
  assert (length (unbind0 (permute_0312 t)) = tN t) as Hn.
  { unfold unbind0, permute_0312, build. cbn [data].
    by rewrite !length_map, length_seq. }
  assert (Forall (fun d => single_sample d /\ tC d = tW t) l) as Hout.
  { clear Hstack Hlen Hn Hl. revert ms l Hall.
    induction Hsingle as [|x xs [[Hwf Hone] HC] _ IH]; intros ms l Hall.
    - cbn in Hall. inversion Hall. constructor.
    - destruct ms as [|m ms]; cbn in Hall; inversion Hall as [|? y ? ys Hy Hys];
        subst; constructor; [|by eapply IH].
      destruct (transform_by_metas_invariant _ _ _ Hwf Hy) as (W & N & C).
      split; [split; [exact W | congruence]|]. rewrite C. exact HC. }
  destruct (stack_squeezed_shape l feats) as (Hwf & HN & Hpos & HC);
    [eapply List.Forall_impl; [|exact Hout]; by intros ? [? _] | exact Hstack |].
  split; [exact Hwf|]. split.
  { rewrite HN, Hlen, length_zip, Hn. reflexivity. }
  split; [lia|].
  destruct l as [|d l']; [cbn in Hpos; lia|].
  rewrite (HC d eq_refl). by apply Forall_cons in Hout as [[_ ?] _].
Qed.

(** X19. With no target sample or no target metadata the loop body never
    runs, and stacking the empty list raises [RuntimeError]. *)
Theorem align_feats_empty_batch t ms :
  tN t = 0%nat \/ ms = [] ->
  align_feats (BTensor t) (BMetas ms) = Raise RuntimeError.
Proof.
  intros Hempty. unfold align_feats. rewrite bind_Ok.
  assert (zip (unbind0 (permute_0312 t)) ms = []) as ->; [|reflexivity].
  destruct Hempty as [Hz| ->].
  - unfold unbind0, permute_0312, build. cbn [data]. by rewrite Hz.
  - by destruct (unbind0 _).
Qed.

(** ** The training step: what it stores *)





Section StoredStates.
Context {value : Type} (self : model value).








(** X21. A batch that does not hold exactly seven values cannot be
    unpacked: [train_step] raises [ValueError] before it calls anything. *)
Theorem train_step_batch_arity data_batch :
  length data_batch <> 7%nat ->
  train_step self data_batch = Raise (ValueError "unpack").
Proof.
  intros Hlen. unfold train_step.
  destruct data_batch as [|? [|? [|? [|? [|? [|? [|? [|? ?]]]]]]]];
    try reflexivity.
  by destruct Hlen.
Qed.

(** X22. A segmentor built without [loss_sim_feat] (the default) cannot
    train: [train_step] never returns, and on a batch of seven values whose
    target features align, with features and decode heads that return, it
    raises [AttributeError] at the call of [self.loss_sim_feat]. *)
Theorem train_step_needs_similarity_loss data_batch :
  loss_sim_feat self = None ->
  (exists e, train_step self data_batch = Raise e) /\
  (forall img_metas_src img_src gt_src img_metas_trg img_trg gt_trg feats_trg
          feats,
     data_batch = [BMetas img_metas_src; BTensor img_src; BTensor gt_src;
                   BMetas img_metas_trg; BTensor img_trg; BTensor gt_trg;
                   feats_trg] ->
     align_feats feats_trg (BMetas img_metas_trg) = Ok feats ->
     (forall img, exists x, extract_feat self img = Ok x) ->
     (forall x metas gt, exists r,
        decode_head_forward_train self x metas gt = Ok r) ->
     train_step self data_batch = Raise AttributeError).
Proof.
  intros Hnone. split.
  - destruct (train_step self data_batch) as [out|e] eqn:H; [|eauto].
    exfalso. unfold train_step in H.
    destruct data_batch as [|? [|? [|? [|? [|? [|? [|? [|? ?]]]]]]]];
      try discriminate H.
    apply bind_Ok_inv in H as (? & _ & H).
    apply bind_Ok_inv in H as (? & _ & H).
    apply bind_Ok_inv in H as (? & _ & H).
    apply bind_Ok_inv in H as ([? ?] & _ & H).
    apply bind_Ok_inv in H as ([? ?] & _ & H).
    rewrite Hnone in H. discriminate H.
  - intros ims i_src gs imt i_trg gt ft feats -> Halign Hfeat Hdec.
    unfold train_step. rewrite Halign, !bind_Ok. cbn [as_tensor as_metas].
    rewrite !bind_Ok.
    destruct (Hfeat i_src) as [x_src ->]. rewrite !bind_Ok.
    destruct (Hfeat i_trg) as [x_trg ->]. rewrite !bind_Ok.
    destruct (Hdec x_src ims gs) as [[l1 s1] ->]. rewrite !bind_Ok.
    destruct (Hdec x_trg imt gt) as [[l2 s2] ->]. rewrite !bind_Ok.
    by rewrite Hnone.
Qed.

End StoredStates.

(** ** A stride of zero *)

Section ZeroStride.
Context {value : Type} (self : model value).

(** X23. A stride of zero along either axis makes [slide_inference] raise
    [ZeroDivisionError] when it computes the grid, before any crop is
    taken. *)
Theorem slide_zero_stride img img_meta rescale hs ws :
  stride (test_cfg self) = (hs, ws) -> hs = 0 \/ ws = 0 ->
  slide_inference self img img_meta rescale = Raise ZeroDivisionError.
Proof.
  intros Hstride Hzero. unfold slide_inference, slide_loop.
  rewrite Hstride. destruct (crop_size (test_cfg self)) as [hc wc].
  unfold grids. destruct Hzero as [-> | ->]; [reflexivity|].
  by destruct (hs =? 0).
Qed.

End ZeroStride.

(** ** The keys of a list of auxiliary heads *)

Lemma no_dot_pretty_N_go (x : N) s : no_dot s -> no_dot (pretty_N_go x s).
Proof.
  revert s. induction (N.lt_wf_0 x) as [x _ IH]; intros s Hs.
  assert (x = 0 \/ 0 < x)%N as [->|Hpos] by lia.
  - by rewrite pretty_N_go_0.
  - rewrite pretty_N_go_step by done. apply IH.
    { by apply N.div_lt. }
    split; [|exact Hs]. unfold pretty_N_char. by repeat case_match.
Qed.

Lemma no_dot_pretty (idx : nat) : no_dot (pretty idx).
Proof.
  unfold pretty, pretty_nat, pretty, pretty_N.
  case_decide; [by split|]. by apply no_dot_pretty_N_go.
Qed.

Lemma app_empty (s : string) : "" +:+ s = s.
Proof. reflexivity. Qed.

Lemma app_String c (s t : string) : String c s +:+ t = String c (s +:+ t).
Proof. reflexivity. Qed.

(** The part before the first dot determines a dotted name. *)
Lemma dotted_inj p1 p2 k1 k2 :
  no_dot p1 -> no_dot p2 ->
  (p1 +:+ ".") +:+ k1 = (p2 +:+ ".") +:+ k2 -> p1 = p2 /\ k1 = k2.
Proof.
  revert p2. induction p1 as [|c p1 IH]; intros [|c' p2] H1 H2 Heq;
    rewrite ?app_String, ?app_empty, ?app_String, ?app_empty in Heq.
  - injection Heq as Hk. by rewrite Hk.
  - injection Heq as <- _. destruct H2 as [H2 _]. by destruct H2.
  - injection Heq as -> _. destruct H1 as [H1 _]. by destruct H1.
  - injection Heq as -> Heq. destruct H1 as [_ H1], H2 as [_ H2].
    destruct (IH p2 H1 H2 Heq) as [-> ->]. done.
Qed.

Lemma aux_key_inj i j k1 k2 :
  (aux_name i +:+ ".") +:+ k1 = (aux_name j +:+ ".") +:+ k2 ->
  i = j /\ k1 = k2.
Proof.
  unfold aux_name. rewrite !app_String, !app_empty. intros [= Heq].
  apply dotted_inj in Heq as [Hp ->]; [|apply no_dot_pretty..].
  by apply (inj pretty) in Hp as ->.
Qed.

Lemma lookup_update_prefix_hit {V} (d m : gmap string V) prefix k v :
  m !! k = Some v ->
  update d (add_prefix m prefix) !! ((prefix +:+ ".") +:+ k) = Some v.
Proof.
  intros Hm. unfold update. apply lookup_union_Some_l.
  unfold add_prefix.
  by rewrite (lookup_kmap (String.app (prefix +:+ ".")) m k).
Qed.

Lemma lookup_update_prefix_miss {V} (d m : gmap string V) prefix key :
  (forall k, is_Some (m !! k) -> key <> (prefix +:+ ".") +:+ k) ->
  update d (add_prefix m prefix) !! key = d !! key.
Proof.
  intros Hkey. unfold update. apply lookup_union_r.
  destruct (add_prefix m prefix !! key) as [v|] eqn:Hv; [|reflexivity].
  unfold add_prefix in Hv.
  apply (lookup_kmap_Some (String.app (prefix +:+ "."))) in Hv
    as (k & -> & Hk).
  by destruct (Hkey k (ex_intro _ v Hk)).
Qed.

Section HeadList.
Context {value : Type}.

Lemma aux_loop_lookup x img_metas gt (hs : list (head_train value)) :
  forall start l0 st0 l st,
    foldM (fun (acc : losses * gmap string value)
               (entry : nat * head_train value) =>
             let '(losses, states) := acc in
             let '(idx, aux_head) := entry in
             '(loss_aux, state_aux) ← aux_head x img_metas gt;
             Ok (update losses (add_prefix loss_aux ("aux_" +:+ pretty idx)),
                 update states (add_prefix state_aux ("aux_" +:+ pretty idx))))
          (l0, st0) (zip (seq start (length hs)) hs)
      = Ok (l, st) ->
    (forall key, (forall j k, (start <= j)%nat ->
                    key <> (aux_name j +:+ ".") +:+ k) ->
       l !! key = l0 !! key /\ st !! key = st0 !! key) /\
    (forall idx h, hs !! idx = Some h ->
       exists loss_aux state_aux,
         h x img_metas gt = Ok (loss_aux, state_aux) /\
         forall name,
           (forall v, loss_aux !! name = Some v ->
            l !! ((aux_name (start + idx) +:+ ".") +:+ name) = Some v) /\
           (forall s, state_aux !! name = Some s ->
            st !! ((aux_name (start + idx) +:+ ".") +:+ name) = Some s)).
Proof.
  induction hs as [|h hs IH]; intros start l0 st0 l st Hrun.
  - cbn in Hrun. injection Hrun as <- <-. split; [done|]. by intros [|?] ?.
  - cbn [length seq zip zip_with foldM] in Hrun.
    apply bind_Ok_inv in Hrun as ([l1 st1] & Hstep & Hrun).
    apply bind_Ok_inv in Hstep as ([la sa] & Hh & Hstep).
    injection Hstep as <- <-.
    destruct (IH _ _ _ _ _ Hrun) as [Hother Hheads].
    fold (aux_name start) in Hother, Hheads. split.
    + intros key Hkey.
      destruct (Hother key) as [-> ->].
      { intros j k Hj. apply Hkey. lia. }
      split; apply lookup_update_prefix_miss; intros k _;
        apply Hkey; lia.
    + intros [|idx] h' Hidx.
      * injection Hidx as <-. exists la, sa. split; [exact Hh|].
        rewrite Nat.add_0_r. intros name.
        destruct (Hother ((aux_name start +:+ ".") +:+ name)) as [-> ->].
        { intros j k Hj Heq. apply aux_key_inj in Heq as [-> _]. lia. }
        split; intros v; apply lookup_update_prefix_hit.
      * cbn in Hidx. destruct (Hheads idx h' Hidx) as (lb & sb & Hb & Hkeys).
        exists lb, sb. split; [exact Hb|].
        by replace (start + S idx)%nat with (S start + idx)%nat by lia.
Qed.

(** X24. The heads of a list of auxiliary heads never overwrite each
    other: when [_auxiliary_head_forward_train] returns, every loss and
    every state that head number [idx] returned under [name] is found under
    [aux_{idx}.name], whatever the other heads returned. *)
Theorem auxiliary_heads_keep_apart (hs : list (head_train value))
    x img_metas gt l st :
  auxiliary_head_forward_train (HeadList hs) x img_metas gt = Ok (l, st) ->
  forall idx h, hs !! idx = Some h ->
    exists loss_aux state_aux,
      h x img_metas gt = Ok (loss_aux, state_aux) /\
      forall name,
        (forall v, loss_aux !! name = Some v ->
           l !! ((aux_name idx +:+ ".") +:+ name) = Some v) /\
        (forall s, state_aux !! name = Some s ->
           st !! ((aux_name idx +:+ ".") +:+ name) = Some s).
Proof.
  unfold auxiliary_head_forward_train. intros Hrun idx h Hidx.
  destruct (aux_loop_lookup _ _ _ _ _ _ _ _ _ Hrun) as [_ Hheads].
  destruct (Hheads idx h Hidx) as (la & sa & Hh & Hkeys).
  exists la, sa. split; [exact Hh | exact Hkeys].
Qed.

End HeadList.

(** ** The properties above on concrete inputs *)

Lemma t22x3_well_formed : well_formed t22x3.
Proof. repeat constructor. Qed.

Lemma quarter_turn_t23 : transform_by_metas t23 quarter_meta = Ok t32.
Proof. vm_compute. reflexivity. Qed.

Lemma transform_by_metas_well_formed_witness :
  well_formed t32 /\ tN t32 = tN t23 /\ tC t32 = tC t23 /\
  ((tH t32 = tH t23 /\ tW t32 = tW t23) \/
   (tH t32 = tW t23 /\ tW t32 = tH t23)).
Proof.
  destruct (transform_by_metas_well_formed t23 quarter_meta t32
              t23_well_formed quarter_turn_t23) as (Hwf & HN & HC & Hshape).
  split; [exact Hwf|]. split; [exact HN|]. split; [exact HC|].
  apply Hshape; reflexivity.
Defined.


Lemma flip_metas_involutive_witness :
  exists once,
    transform_by_metas t22 both_flips_meta = Ok once /\
    transform_by_metas once both_flips_meta = Ok t22.
Proof.
  apply (flip_metas_involutive t22 both_flips_meta); reflexivity.
Defined.

Lemma crop_t44 : step_crop t44 crop_equal = Ok t44_cropped.
Proof. vm_compute. reflexivity. Qed.

Lemma crop_step_shape_witness :
  Z.of_nat (tH t44_cropped) = 24 ÷ 8 - 8 ÷ 8 /\
  Z.of_nat (tW t44_cropped) = 16 ÷ 8 - 0 ÷ 8.
Proof.
  destruct (crop_step_shape t44 crop_equal 8 24 0 16 t44_cropped eq_refl
              crop_t44) as (_ & _ & Hheight & Hwidth).
  split; [apply Hheight | apply Hwidth];
    first [lia | (vm_compute; discriminate)].
Defined.

Lemma crop_step_required_keys_witness :
  transform_by_metas t22 crop_only = Raise (KeyError "scale_factor").
Proof.
  destruct (crop_step_required_keys t22 crop_only
              (MSeq [0%Q; 8%Q; 0%Q; 8%Q]) eq_refl) as [Hscale _].
  apply Hscale. reflexivity.
Defined.

Lemma slide_crop_shape_witness :
  Z.of_nat (tH (index_hw t44 1 3 1 3)) = Z.min 2 (Z.of_nat (tH t44)) /\
  Z.of_nat (tW (index_hw t44 1 3 1 3)) = Z.min 2 (Z.of_nat (tW t44)).
Proof.
  destruct (slide_crop_shape t44 2 2 1 1 1 1 1 3 1 3) as (_ & Hh & Hw);
    [lia | lia | lia | lia | reflexivity |].
  split; assumption.
Defined.

Lemma toy_slide_logits :
  slide_inference (toy slide_cfg false PdbContinue) t22 [plain_meta] false
    = Ok t22x3.
Proof. vm_compute. reflexivity. Qed.

Lemma slide_inference_shape_witness :
  tN t22x3 = tN t22 /\
  tC t22x3 = num_classes (toy slide_cfg false PdbContinue) /\
  tH t22x3 = tH t22 /\ tW t22x3 = tW t22.
Proof.
  apply (slide_inference_shape (toy slide_cfg false PdbContinue) t22
           [plain_meta] t22x3 toy_slide_logits).
Defined.

Lemma toy_whole_logits :
  whole_inference (toy slide_cfg false PdbContinue) t22x3 [plain_meta] false
    = Ok (t22x3,
          <["seg_logits" := SegLogits t22x3]> {["feats" := Feats [t22x3]]}).
Proof. vm_compute. reflexivity. Qed.

Lemma slide_single_crop_is_whole_witness :
  exists preds,
    slide_inference (toy slide_cfg false PdbContinue) t22x3 [plain_meta] false
      = Ok preds /\
    (tN preds = tN t22x3 /\ tC preds = tC t22x3 /\
     tH preds = tH t22x3 /\ tW preds = tW t22x3) /\
    forall n c i j, in_bounds t22x3 n c i j ->
      (get preds n c i j == get t22x3 n c i j)%Q.
Proof.
  apply (slide_single_crop_is_whole (toy slide_cfg false PdbContinue) t22x3
           [plain_meta] t22x3
           (<["seg_logits" := SegLogits t22x3]> {["feats" := Feats [t22x3]]})
           1 1 2 2 t22x3_well_formed);
    [reflexivity | reflexivity | lia | lia | cbn; lia | cbn; lia
     | exact toy_whole_logits | reflexivity | reflexivity | reflexivity
     | reflexivity].
Defined.

Lemma gap_loop_returns :
  match slide_loop (toy gap_cfg false PdbContinue) t44 [plain_meta] with
  | Ok _ => True
  | Raise _ => False
  end.
Proof. vm_compute. exact I. Qed.

Lemma slide_gap_fails_assertion_witness :
  slide_inference (toy gap_cfg false PdbContinue) t44 [plain_meta] true
    = Raise AssertionError.
Proof.
  pose proof gap_loop_returns as Hret.
  destruct (slide_loop (toy gap_cfg false PdbContinue) t44 [plain_meta])
    as [[preds count_mat]|e] eqn:Hloop; [|destruct Hret].
  apply (slide_gap_fails_assertion (toy gap_cfg false PdbContinue) t44
           [plain_meta] true preds count_mat 3 3 1 1);
    [reflexivity | reflexivity | cbn; lia | cbn; lia | cbn; lia
     | left; cbn; lia | exact Hloop].
Defined.

Lemma inference_entry_checks_witness :
  inference (toy unknown_cfg false PdbContinue) t22 (MetaList [plain_meta]) true
    = Raise AssertionError /\
  inference (toy whole_cfg false PdbContinue) t22 (MetaList []) true
    = Raise IndexError.
Proof.
  split.
  - destruct (inference_entry_checks (toy unknown_cfg false PdbContinue) t22
                (MetaList [plain_meta]) true) as [Hmode _].
    apply Hmode. intros [H|H]; discriminate H.
  - destruct (inference_entry_checks (toy whole_cfg false PdbContinue) t22
                (MetaList []) true) as [_ Hvalid].
    destruct (Hvalid (or_intror eq_refl)) as [Hempty _].
    apply Hempty. right. reflexivity.
Defined.

Lemma whole_mode_states_witness :
  exists metas x logits,
    unwrapped (MetaList [plain_meta]) = Some metas /\
    extract_feat (toy whole_cfg false PdbContinue) t22 = Ok x /\
    encode_decode (toy whole_cfg false PdbContinue) t22 metas
      = Ok (logits,
            <["seg_logits" := SegLogits t22]> {["feats" := Feats [t22]]}) /\
    (<["seg_logits" := SegLogits t22]> {["feats" := Feats [t22]]}
       : gmap string test_state) !! "feats" = Some (Feats x) /\
    (<["seg_logits" := SegLogits t22]> {["feats" := Feats [t22]]}
       : gmap string test_state) !! "seg_logits" = Some (SegLogits logits) /\
    dom (<["seg_logits" := SegLogits t22]> {["feats" := Feats [t22]]}
           : gmap string test_state)
      = ({["feats"; "seg_logits"]} : gset string).
Proof.
  apply (whole_mode_states (toy whole_cfg false PdbContinue) t22
           (MetaList [plain_meta]) true t22 _ eq_refl toy_whole_inference).
Defined.

Lemma toy_simple_test :
  simple_test (toy whole_cfg false PdbContinue) t22 (MetaList [plain_meta]) true
    = Ok (Tested [[[0%Q; 0%Q]; [0%Q; 0%Q]]] [t22_state]).
Proof. vm_compute. reflexivity. Qed.

Lemma simple_test_state_per_sample_witness :
  in_onnx_export (toy whole_cfg false PdbContinue) = false /\
  length [t22_state] = length [[[0%Q; 0%Q]; [0%Q; 0%Q]]].
Proof.
  destruct (simple_test_state_per_sample (toy whole_cfg false PdbContinue) t22
              (MetaList [plain_meta]) true _ _ toy_simple_test)
    as (Hexport & Hlen & _).
  split; assumption.
Defined.

Lemma align_feats_shape_witness :
  well_formed t22_aligned /\
  tN t22_aligned = Nat.min (tN t22) (length [(∅ : meta_dict)]) /\
  (0 < tN t22_aligned)%nat /\ tC t22_aligned = tW t22.
Proof.
  apply (align_feats_shape t22 [∅] t22_aligned toy_align_feats).
Defined.

Lemma align_feats_empty_batch_witness :
  align_feats (BTensor t22) (BMetas []) = Raise RuntimeError.
Proof.
  apply (align_feats_empty_batch t22 []). right. reflexivity.
Defined.



Lemma train_step_batch_arity_witness :
  train_step (toy whole_cfg false PdbContinue) [] = Raise (ValueError "unpack").
Proof.
  apply (train_step_batch_arity (toy whole_cfg false PdbContinue) []).
  cbn. discriminate.
Defined.

Lemma train_step_needs_similarity_loss_witness :
  train_step (without_similarity_loss (toy whole_cfg false PdbContinue))
    toy_batch = Raise AttributeError.
Proof.
  destruct (train_step_needs_similarity_loss
              (without_similarity_loss (toy whole_cfg false PdbContinue))
              toy_batch eq_refl) as [_ Hexact].
  apply (Hexact [∅] t22 t22 [∅] t22 t22 (BTensor t22) t22_aligned eq_refl
           toy_align_feats).
  - intros img. exists [img]. reflexivity.
  - intros x metas gt. eexists. reflexivity.
Defined.

Lemma slide_zero_stride_witness :
  slide_inference (toy zero_stride_cfg false PdbContinue) t22 [plain_meta] true
    = Raise ZeroDivisionError.
Proof.
  apply (slide_zero_stride (toy zero_stride_cfg false PdbContinue) t22
           [plain_meta] true 1 0); [reflexivity | right; reflexivity].
Defined.

Lemma two_heads_return :
  match auxiliary_head_forward_train (HeadList two_heads) [t22] [∅] t22 with
  | Ok _ => True
  | Raise _ => False
  end.
Proof. vm_compute. exact I. Qed.

Lemma auxiliary_heads_keep_apart_witness :
  match auxiliary_head_forward_train (HeadList two_heads) [t22] [∅] t22 with
  | Ok (l, st) =>
      l !! "aux_0.loss_seg" = Some 1%Q /\
      st !! "aux_1.seg_logits" = Some 0%Q
  | Raise _ => False
  end.
Proof.
  pose proof two_heads_return as Hret.
  destruct (auxiliary_head_forward_train (HeadList two_heads) [t22] [∅] t22)
    as [[l st]|e] eqn:Hrun; [|exact Hret].
  destruct (auxiliary_heads_keep_apart two_heads [t22] [∅] t22 l st Hrun
              0%nat toy_head eq_refl) as (l0 & st0 & Hfirst & Hkeys0).
  destruct (auxiliary_heads_keep_apart two_heads [t22] [∅] t22 l st Hrun
              1%nat toy_head eq_refl) as (l1 & st1 & Hsecond & Hkeys1).
  injection Hfirst as <- <-. injection Hsecond as <- <-. split.
  - exact (proj1 (Hkeys0 "loss_seg") 1%Q eq_refl).
  - exact (proj2 (Hkeys1 "seg_logits") 0%Q eq_refl).
Defined.
